(** * The sync engine of [src/app/api/sync-documents/route.ts]

    A shallow embedding of the [POST] handler that copies every blob of a
    Vercel Blob store into Open Web UI and then attaches the processed
    files to a knowledge collection.

    The handler is sequential [async] code.  Every call that leaves the
    process ([list], [fetch], the three [axios] calls, [setTimeout], the
    clock) is answered by a [World]; the handler threads a [History] of
    the calls it has made and of the answers it got, so that "no call was
    issued" and "the call was not repeated" are statements about a list.

    Strings are Rocq strings, read as the UTF-8 encoding of the
    handler's strings: a character outside ASCII is the two to four bytes
    of its encoding.  The structured logger only writes to the console
    and is modelled apart from the handler. *)

From Stdlib Require Import ZArith Ascii Bool Lia.
From stdpp Require Import base tactics option list strings.

Local Open Scope Z_scope.

(** ** JavaScript values the handler looks at *)

(** What a [catch (error)] clause receives: an [Error] instance with its
    message, or any other thrown value. *)
Inductive exn : Type :=
| ErrorObj (message : string)
| NonError.

(** [error instanceof Error ? error.message : "Unknown error"] *)
Definition errorMessage (error : exn) : string :=
  match error with
  | ErrorObj message => message
  | NonError => "Unknown error"
  end.

(** An awaited promise: rejected with a thrown value, or fulfilled. *)
Inductive Settled (A : Type) : Type :=
| Rejected (error : exn)
| Fulfilled (value : A).
Arguments Rejected {A} error.
Arguments Fulfilled {A} value.

(** Truthiness of a [string | undefined]: [undefined] and the empty string
    are falsy. *)
Definition truthy (v : option string) : bool :=
  match v with
  | None => false
  | Some s => negb (String.eqb s EmptyString)
  end.

(** The string of the bytes [l]. *)
Definition bytes (l : list nat) : string :=
  String.string_of_list_ascii (map ascii_of_nat l).

(** ** Content classification (route.ts, lines 327-386) *)

(** [String.prototype.split] for the one-character separator ["."]: the
    result is never empty and its last element is what follows the last
    dot (the whole string when there is no dot). *)
Fixpoint split_dot (s : string) : list string :=
  match s with
  | EmptyString => [EmptyString]
  | String c rest =>
      if Ascii.eqb c "."%char then EmptyString :: split_dot rest
      else match split_dot rest with
           | [] => [String c EmptyString]
           | seg :: segs => String c seg :: segs
           end
  end.

(** [Array.prototype.pop]: the last element, [undefined] on an empty array. *)
Definition pop (segments : list string) : option string := last segments.

(** The small letter of an ASCII capital; any other byte is left alone. *)
Definition lower_char (c : ascii) : ascii :=
  let n := nat_of_ascii c in
  if Nat.leb 65 n && Nat.leb n 90 then ascii_of_nat (n + 32) else c.

(** The three bytes of KELVIN SIGN (U+212A). *)
Definition isKelvin (c1 c2 c3 : ascii) : bool :=
  Ascii.eqb c1 "226"%char && Ascii.eqb c2 "132"%char && Ascii.eqb c3 "170"%char.

(** [String.prototype.toLowerCase], as far as the handler can tell.  The
    method follows the Unicode case mapping; the characters it maps to
    ASCII are the capitals [A] to [Z] and KELVIN SIGN, which becomes [k].
    The lower-case form of every other character has a character outside
    ASCII (that of U+0130 is [i] followed by U+0307), and all the handler
    does with the result is to compare it with the ASCII labels of the
    [switch]; such characters are left as they are. *)
Fixpoint toLowerCase (s : string) : string :=
  match s with
  | EmptyString => EmptyString
  | String c rest =>
      match rest with
      | String c2 (String c3 rest') =>
          if isKelvin c c2 c3 then String "k"%char (toLowerCase rest')
          else String (lower_char c) (toLowerCase rest)
      | _ => String (lower_char c) (toLowerCase rest)
      end
  end.

(** [blob.pathname.split(".").pop()?.toLowerCase()] *)
Definition fileExtension (pathname : string) : option string :=
  toLowerCase <$> pop (split_dot pathname).

(** How the response body is read: [response.text()] or
    [response.arrayBuffer()]. *)
Inductive Transfer : Type := AsText | AsArrayBuffer.

Record Classified : Type := mkClassified {
  contentType : string;
  transfer : Transfer
}.

(** The [switch (fileExtension)] statement; [contentType] starts as
    ["application/octet-stream"] and the [default] arm reads the body as an
    array buffer. *)
Definition classify (ext : option string) : Classified :=
  match ext with
  | None => mkClassified "application/octet-stream" AsArrayBuffer
  | Some e =>
      if String.eqb e "md" || String.eqb e "markdown" then
        mkClassified "text/markdown" AsText
      else if String.eqb e "txt" then
        mkClassified "text/plain" AsText
      else if String.eqb e "json" then
        mkClassified "application/json" AsText
      else if String.eqb e "html" then
        mkClassified "text/html" AsText
      else if String.eqb e "pdf" then
        mkClassified "application/pdf" AsArrayBuffer
      else if String.eqb e "doc" || String.eqb e "docx" then
        mkClassified
          "application/vnd.openxmlformats-officedocument.wordprocessingml.document"
          AsArrayBuffer
      else if String.eqb e "xls" || String.eqb e "xlsx" then
        mkClassified
          "application/vnd.openxmlformats-officedocument.spreadsheetml.sheet"
          AsArrayBuffer
      else if String.eqb e "ppt" || String.eqb e "pptx" then
        mkClassified
          "application/vnd.openxmlformats-officedocument.presentationml.presentation"
          AsArrayBuffer
      else if String.eqb e "jpg" || String.eqb e "jpeg" then
        mkClassified "image/jpeg" AsArrayBuffer
      else if String.eqb e "png" then
        mkClassified "image/png" AsArrayBuffer
      else if String.eqb e "gif" then
        mkClassified "image/gif" AsArrayBuffer
      else
        mkClassified "application/octet-stream" AsArrayBuffer
  end.

(** Classification of a path, as the upload loop performs it. *)
Definition classifyPath (pathname : string) : Classified :=
  classify (fileExtension pathname).

(** ** White space ([trim] at route.ts, line 496) *)

(** The characters [String.prototype.trim] removes, in UTF-8: the
    WhiteSpace and LineTerminator characters of ECMAScript, which are
    U+0009 to U+000D, U+0020, U+00A0, U+1680, U+2000 to U+200A, U+2028,
    U+2029, U+202F, U+205F, U+3000 and U+FEFF. *)
Definition whiteSpace : list string :=
  map bytes
    [[9]; [10]; [11]; [12]; [13]; [32];
     [194; 160];
     [225; 154; 128];
     [226; 128; 128]; [226; 128; 129]; [226; 128; 130]; [226; 128; 131];
     [226; 128; 132]; [226; 128; 133]; [226; 128; 134]; [226; 128; 135];
     [226; 128; 136]; [226; 128; 137]; [226; 128; 138];
     [226; 128; 168]; [226; 128; 169]; [226; 128; 175];
     [226; 129; 159];
     [227; 128; 128];
     [239; 187; 191]]%nat.

(** What is left of [s] after its prefix [p], if [s] starts with [p]. *)
Fixpoint dropPrefix (p s : string) : option string :=
  match p, s with
  | EmptyString, _ => Some s
  | String a p', String b s' =>
      if Ascii.eqb a b then dropPrefix p' s' else None
  | String _ _, EmptyString => None
  end.

(** What is left of [s] after the first of [patterns] it starts with. *)
Fixpoint stripOne (patterns : list string) (s : string) : option string :=
  match patterns with
  | [] => None
  | p :: patterns' =>
      match dropPrefix p s with
      | Some rest => Some rest
      | None => stripOne patterns' s
      end
  end.

(** Removes leading [patterns] as long as there is one, at most [fuel]
    times. *)
Fixpoint stripLeading (patterns : list string) (fuel : nat) (s : string)
  : string :=
  match fuel with
  | O => s
  | S fuel' =>
      match stripOne patterns s with
      | Some rest => stripLeading patterns fuel' rest
      | None => s
      end
  end.

(** [String.prototype.trimStart]: every removal takes at least one byte,
    so the length of [s] is fuel enough. *)
Definition trimStart (s : string) : string :=
  stripLeading whiteSpace (String.length s) s.

(** [String.prototype.trimEnd]: the same from the other end, on the
    reversed bytes. *)
Definition trimEnd (s : string) : string :=
  String.rev
    (stripLeading (map String.rev whiteSpace) (String.length s) (String.rev s)).

(** [String.prototype.trim] *)
Definition trim (s : string) : string := trimEnd (trimStart s).

(** ** Data model (the interfaces of route.ts, lines 85-106) *)

Module BlobFile.
Record t : Type := mk {
  url : string;
  pathname : string;
  size : Z;
  uploadedAt : Z
}.
End BlobFile.

Module UploadedFile.
Record t : Type := mk {
  id : string;
  pathname : string;
  size : Z;
  uploadedAt : Z
}.
End UploadedFile.

Module SyncResult.
Record t : Type := mk {
  file : string;
  status : string;
  openWebUIId : string;
  collectionStatus : option string;
  size : Z;
  uploadedAt : Z
}.

(** [{ ...r, collectionStatus: s }] *)
Definition withCollectionStatus (s : option string) (r : t) : t :=
  mk (file r) (status r) (openWebUIId r) s (size r) (uploadedAt r).
End SyncResult.

(** An element of [uploadErrors]. *)
Module UploadError.
Record t : Type := mk {
  file : string;
  error : string
}.
End UploadError.

(** ** The outside world *)

(** The part of a [fetch] response the handler reads. *)
Record FetchResponse : Type := mkFetchResponse {
  ok : bool;
  statusText : string;
  text : Settled string;
  arrayBuffer : Settled (list Byte.byte)
}.

(** What goes into [new Blob([content], ...)]. *)
Inductive Content : Type :=
| TextContent (s : string)
| BufferContent (b : list Byte.byte).

(** [fileStatusResponse.data.data], the record the status endpoint wraps. *)
Record FileData : Type := mkFileData {
  fd_status : option string;
  fd_content : option string
}.

(** One call that left the process, with the answer it got. *)
Inductive Event : Type :=
| EvFetch (url : string) (r : Settled FetchResponse)
| EvPostFile (filename mime : string) (content : Content)
    (r : Settled (option string))
| EvSetTimeout (ms : Z)
| EvGetFile (fileId : string) (r : Settled (option FileData))
| EvPostKnowledge (collectionId fileId : string) (r : Settled unit).

(** The calls made so far, the most recent one first. *)
Definition History : Type := list Event.

(** The answers of the outside world.  Every answer may depend on all that
    happened before, which covers a service whose state changes with time
    and with the requests it has served.

    - [list_blobs token] is [list({ token })], giving [blobs];
    - [axios_post_file] is the [POST {base}/api/v1/files/] call and gives
      [uploadResponse.data?.id] ([None] when there is no such field);
    - [axios_get_file] is the [GET {base}/api/v1/files/{id}] call together
      with the reads of [fileData.data]: it gives [None] when that field is
      missing, and [Rejected] both for a failed request and for a payload on
      which those reads throw, since one [catch] receives either;
    - [axios_post_knowledge] is the
      [POST {base}/api/v1/knowledge/{collection}/file/add] call. *)
Record World : Type := mkWorld {
  list_blobs : string -> Settled (list BlobFile.t);
  fetch : History -> string -> Settled FetchResponse;
  axios_post_file :
    History -> string -> string -> string -> string -> Content ->
    Settled (option string);
  axios_get_file :
    History -> string -> string -> string -> Settled (option FileData);
  axios_post_knowledge :
    History -> string -> string -> string -> string -> Settled unit;
  now : History -> string
}.

(** ** Asynchronous code as a history-passing computation *)

Definition Task (A : Type) : Type := History -> Settled A * History.

Definition ret {A} (a : A) : Task A := fun h => (Fulfilled a, h).

Definition throw {A} (error : exn) : Task A := fun h => (Rejected error, h).

Definition bind {A B} (m : Task A) (k : A -> Task B) : Task B :=
  fun h =>
    match m h with
    | (Fulfilled a, h') => k a h'
    | (Rejected error, h') => (Rejected error, h')
    end.

(** A promise handed out by a library: awaiting it settles it. *)
Definition settle {A} (r : Settled A) : Task A := fun h => (r, h).

Declare Scope task_scope.
Delimit Scope task_scope with task.
Notation "x <- m ;; k" := (bind m (fun x => k))
  (at level 100, m at next level, right associativity) : task_scope.
Local Open Scope task_scope.

(** The settings the handler reads from [process.env]. *)
Record Env : Type := mkEnv {
  CRON_SECRET : option string;
  BLOB_READ_WRITE_TOKEN : option string;
  OPEN_WEB_UI_BASE_URL : option string;
  OPEN_WEB_UI_API_KEY : option string;
  KNOWLEDGE_COLLECTION_ID : option string
}.

Section Handler.

Variable w : World.
(** [OPEN_WEB_UI_BASE_URL] and [OPEN_WEB_UI_API_KEY], once checked. *)
Variables baseUrl apiKey : string.

Definition await_fetch (url : string) : Task FetchResponse :=
  fun h => let r := fetch w h url in (r, EvFetch url r :: h).

Definition await_post_file (filename mime : string) (content : Content)
  : Task (option string) :=
  fun h =>
    let r := axios_post_file w h baseUrl apiKey filename mime content in
    (r, EvPostFile filename mime content r :: h).

Definition await_get_file (fileId : string) : Task (option FileData) :=
  fun h =>
    let r := axios_get_file w h baseUrl apiKey fileId in
    (r, EvGetFile fileId r :: h).

Definition await_post_knowledge (collectionId fileId : string) : Task unit :=
  fun h =>
    let r := axios_post_knowledge w h baseUrl apiKey collectionId fileId in
    (r, EvPostKnowledge collectionId fileId r :: h).

(** [await new Promise((resolve) => setTimeout(resolve, ms))] *)
Definition sleep (ms : Z) : Task unit :=
  fun h => (Fulfilled tt, EvSetTimeout ms :: h).

(** *** Phase 1: upload (lines 306-441) *)

(** [await response.text()] or [await response.arrayBuffer()] *)
Definition readBody (response : FetchResponse) (t : Transfer) : Task Content :=
  match t with
  | AsText => s <- settle (text response) ;; ret (TextContent s)
  | AsArrayBuffer => b <- settle (arrayBuffer response) ;; ret (BufferContent b)
  end.

(** The body of the [try] of one loop iteration; it gives [fileId]. *)
Definition uploadBlob (blob : BlobFile.t) : Task string :=
  response <- await_fetch (BlobFile.url blob) ;;
  if negb (ok response) then
    throw (ErrorObj ("Failed to fetch blob content: " +:+ statusText response))
  else
    let c := classify (fileExtension (BlobFile.pathname blob)) in
    content <- readBody response (transfer c) ;;
    fileId <- await_post_file (BlobFile.pathname blob) (contentType c) content ;;
    match fileId with
    | Some i =>
        if truthy fileId then ret i
        else throw (ErrorObj "Failed to get file ID from upload response")
    | None => throw (ErrorObj "Failed to get file ID from upload response")
    end.

(** The three arrays the upload loop fills. *)
Record Uploads : Type := mkUploads {
  uploadResults : list SyncResult.t;
  uploadErrors : list UploadError.t;
  uploadedFiles : list UploadedFile.t
}.

Definition noUploads : Uploads := mkUploads [] [] [].

(** One iteration of [for (const blob of blobs)], with its [catch]. *)
Definition uploadStep (st : Uploads * History) (blob : BlobFile.t)
  : Uploads * History :=
  let '(acc, h) := st in
  match uploadBlob blob h with
  | (Fulfilled fileId, h') =>
      (mkUploads
         (uploadResults acc ++
            [SyncResult.mk (BlobFile.pathname blob) "uploaded" fileId None
               (BlobFile.size blob) (BlobFile.uploadedAt blob)])
         (uploadErrors acc)
         (uploadedFiles acc ++
            [UploadedFile.mk fileId (BlobFile.pathname blob)
               (BlobFile.size blob) (BlobFile.uploadedAt blob)]),
       h')
  | (Rejected error, h') =>
      (mkUploads
         (uploadResults acc)
         (uploadErrors acc ++
            [UploadError.mk (BlobFile.pathname blob) (errorMessage error)])
         (uploadedFiles acc),
       h')
  end.

Definition uploadLoop (blobs : list BlobFile.t) (st : Uploads * History)
  : Uploads * History :=
  fold_left uploadStep blobs st.

(** *** Phase 2: readiness polling and collection assignment
    (lines 449-606) *)

Definition maxAttempts : nat := 6.

(** [fileData.data?.status === "completed"] *)
Definition isProcessed (data : option FileData) : bool :=
  match data with
  | Some d =>
      match fd_status d with
      | Some s => String.eqb s "completed"
      | None => false
      end
  | None => false
  end.

(** [fileData.data?.content && fileData.data.content.trim().length > 0] *)
Definition hasContent (data : option FileData) : bool :=
  match data with
  | Some d =>
      truthy (fd_content d) &&
      match fd_content d with
      | Some c => 0 <? Z.of_nat (String.length (trim c))
      | None => false
      end
  | None => false
  end.

(** The [while (!fileReady && attempts < maxAttempts)] loop, entered with
    [fileReady = false] and [attempts = maxAttempts - remaining]; it gives
    the final [fileReady].  A rejected status call leaves through [break];
    the pause of 3000 ms is taken only when an attempt is left. *)
Fixpoint pollStatus (fileId : string) (remaining : nat) (h : History)
  : bool * History :=
  match remaining with
  | O => (false, h)
  | S remaining' =>
      match await_get_file fileId h with
      | (Fulfilled data, h1) =>
          if isProcessed data && hasContent data then (true, h1)
          else
            match remaining' with
            | O => pollStatus fileId remaining' h1
            | S _ =>
                pollStatus fileId remaining' (snd (sleep 3000 h1))
            end
      | (Rejected statusError, h1) => (false, h1)
      end
  end.

(** [finalResults.findIndex((r) => r.openWebUIId === id)] *)
Definition findIndex (fileId : string) (finalResults : list SyncResult.t) : Z :=
  match list_find (fun r => SyncResult.openWebUIId r = fileId) finalResults with
  | Some (i, _) => Z.of_nat i
  | None => -1
  end.

(** [if (resultIndex >= 0) { finalResults[resultIndex] =
    { ...finalResults[resultIndex], collectionStatus: s } }] *)
Definition setCollectionStatus (resultIndex : Z) (s : option string)
    (finalResults : list SyncResult.t) : list SyncResult.t :=
  if 0 <=? resultIndex then
    alter (SyncResult.withCollectionStatus s) (Z.to_nat resultIndex)
      finalResults
  else finalResults.

(** The body of the outer [try] of one iteration of the second loop; it
    gives the updated [finalResults].  The array is written as the last
    step of every path, so nothing is lost by handing it back as the
    result. *)
Definition collectFile (collectionId : string) (uploadedFile : UploadedFile.t)
    (finalResults : list SyncResult.t) : Task (list SyncResult.t) :=
  fun h =>
    let '(fileReady, h1) :=
      pollStatus (UploadedFile.id uploadedFile) maxAttempts h in
    let resultIndex := findIndex (UploadedFile.id uploadedFile) finalResults in
    if negb fileReady then
      (Fulfilled
         (setCollectionStatus resultIndex (Some "not-processed") finalResults),
       h1)
    else
      match await_post_knowledge collectionId
              (UploadedFile.id uploadedFile) h1 with
      | (Fulfilled _, h2) =>
          (Fulfilled
             (setCollectionStatus resultIndex (Some "added") finalResults),
           h2)
      | (Rejected collectionError, h2) =>
          (Fulfilled
             (setCollectionStatus resultIndex (Some "collection-failed")
                finalResults),
           h2)
      end.

(** One iteration of [for (let i = 0; i < uploadedFiles.length; i++)],
    with the outer [catch] that marks the entry as ["error"]. *)
Definition collectStep (collectionId : string)
    (st : list SyncResult.t * History) (uploadedFile : UploadedFile.t)
  : list SyncResult.t * History :=
  let '(finalResults, h) := st in
  match collectFile collectionId uploadedFile finalResults h with
  | (Fulfilled finalResults', h') => (finalResults', h')
  | (Rejected error, h') =>
      (setCollectionStatus
         (findIndex (UploadedFile.id uploadedFile) finalResults)
         (Some "error") finalResults,
       h')
  end.

(** [finalResults.forEach((result, index) => { finalResults[index] =
    { ...result, collectionStatus: null } })] *)
Definition clearCollectionStatus (finalResults : list SyncResult.t)
  : list SyncResult.t :=
  map (SyncResult.withCollectionStatus None) finalResults.

(** Everything between the end of the first loop and the summary. *)
Definition collectionPhase (collectionId : option string) (up : Uploads)
    (h : History) : list SyncResult.t * History :=
  let finalResults := uploadResults up in
  match collectionId with
  | Some cid =>
      if truthy collectionId && (0 <? Z.of_nat (length (uploadedFiles up))) then
        fold_left (collectStep cid) (uploadedFiles up)
          (finalResults, snd (sleep 5000 h))
      else (clearCollectionStatus finalResults, h)
  | None => (clearCollectionStatus finalResults, h)
  end.

(** *** The summary (lines 608-624) *)

Record Summary : Type := mkSummary {
  totalFiles : Z;
  successful : Z;
  failed : Z;
  addedToCollection : Z;
  timestamp : string;
  results : list SyncResult.t;
  errors : list UploadError.t
}.

Definition isUploaded (r : SyncResult.t) : bool :=
  String.eqb (SyncResult.status r) "uploaded".

Definition isAdded (r : SyncResult.t) : bool :=
  match SyncResult.collectionStatus r with
  | Some s => String.eqb s "added"
  | None => false
  end.

(** The run from the listing to the summary, with the history of all the
    calls it made. *)
Definition syncBlobs (collectionId : option string) (blobs : list BlobFile.t)
  : Summary * History :=
  let '(up, h1) := uploadLoop blobs (noUploads, []) in
  let '(finalResults, h2) := collectionPhase collectionId up h1 in
  (mkSummary
     (Z.of_nat (length blobs))
     (Z.of_nat (length (filter (fun r => isUploaded r = true) finalResults)))
     (Z.of_nat (length (uploadErrors up)))
     (Z.of_nat (length (filter (fun r => isAdded r = true) finalResults)))
     (now w h2)
     finalResults
     (uploadErrors up),
   h2).

End Handler.

(** ** The handler (lines 248-648) *)

(** The JSON documents the handler answers with: the summary, or an object
    with an [error] field and, depending on the exit, [details] and
    [timestamp]. *)
Inductive Body : Type :=
| SummaryBody (summary : Summary)
| ErrorBody (error : string) (details : option string)
    (timestamp : option string).

Record Response : Type := mkResponse {
  statusCode : Z;
  body : Body
}.

(** [[!X && "X", ...].filter(Boolean)] *)
Definition missingEnvVars (env : Env) : list string :=
  (if truthy (BLOB_READ_WRITE_TOKEN env) then [] else ["BLOB_READ_WRITE_TOKEN"]) ++
  (if truthy (OPEN_WEB_UI_BASE_URL env) then [] else ["OPEN_WEB_UI_BASE_URL"]) ++
  (if truthy (OPEN_WEB_UI_API_KEY env) then [] else ["OPEN_WEB_UI_API_KEY"]).

(** [!cronSecret || authHeader !== `Bearer ${cronSecret}`] *)
Definition unauthorized (env : Env) (authHeader : option string) : bool :=
  match CRON_SECRET env with
  | Some cronSecret =>
      negb (truthy (CRON_SECRET env)) ||
      negb (bool_decide (authHeader = Some ("Bearer " +:+ cronSecret)))
  | None => true
  end.

(** The value of a variable that is known to be set. *)
Definition the (v : option string) : string := default EmptyString v.

(** [POST(request)]: [authHeader] is [request.headers.get("authorization")].
    The history comes with the response so that one can say which calls a
    request caused.  [list] is the only call outside the per-item [try]
    blocks that can reject, so it is the one the outermost [catch] serves. *)
Definition POST (w : World) (env : Env) (authHeader : option string)
  : Response * History :=
  if unauthorized env authHeader then
    (mkResponse 401 (ErrorBody "Unauthorized" None None), [])
  else if 0 <? Z.of_nat (length (missingEnvVars env)) then
    (mkResponse 500
       (ErrorBody "Missing required environment variables" None None), [])
  else
    match list_blobs w (the (BLOB_READ_WRITE_TOKEN env)) with
    | Fulfilled blobs =>
        let '(summary, h) :=
          syncBlobs w (the (OPEN_WEB_UI_BASE_URL env))
            (the (OPEN_WEB_UI_API_KEY env)) (KNOWLEDGE_COLLECTION_ID env) blobs in
        (mkResponse 200 (SummaryBody summary), h)
    | Rejected error =>
        (mkResponse 500
           (ErrorBody "Sync operation failed" (Some (errorMessage error))
              (Some (now w []))), [])
    end.


(** * Vocabulary of the properties *)

(** Walking the listing in order, every blob accounts for exactly the next
    entry of [results] (an upload that went through) or the next entry of
    [errors] (an upload that failed). *)
Inductive Reported
  : list BlobFile.t -> list SyncResult.t -> list UploadError.t -> Prop :=
| Reported_nil : Reported [] [] []
| Reported_uploaded blob r blobs rs es :
    SyncResult.file r = BlobFile.pathname blob ->
    SyncResult.status r = "uploaded" ->
    SyncResult.size r = BlobFile.size blob ->
    SyncResult.uploadedAt r = BlobFile.uploadedAt blob ->
    Reported blobs rs es ->
    Reported (blob :: blobs) (r :: rs) es
| Reported_failed blob e blobs rs es :
    UploadError.file e = BlobFile.pathname blob ->
    Reported blobs rs es ->
    Reported (blob :: blobs) rs (e :: es).

(** The entry of [uploadResults] that goes with an element of
    [uploadedFiles]. *)
Definition resultOf (f : UploadedFile.t) : SyncResult.t :=
  SyncResult.mk (UploadedFile.pathname f) "uploaded" (UploadedFile.id f) None
    (UploadedFile.size f) (UploadedFile.uploadedAt f).

(** Events of the upload phase. *)
Definition uploadEvent (ev : Event) : Prop :=
  match ev with
  | EvFetch _ _ | EvPostFile _ _ _ _ => True
  | _ => False
  end.

(** [isProcessed && hasContent] *)
Definition readyData (data : option FileData) : bool :=
  isProcessed data && hasContent data.

(** The calls one run of the polling loop makes for file [x] when it is
    entered with [n] attempts left, most recent first, and the [fileReady]
    it ends with. *)
Inductive PollTrace (x : string) : nat -> bool -> list Event -> Prop :=
| Poll_exhausted : PollTrace x 0 false []
| Poll_rejected n e : PollTrace x (S n) false [EvGetFile x (Rejected e)]
| Poll_ready n d :
    readyData d = true -> PollTrace x (S n) true [EvGetFile x (Fulfilled d)]
| Poll_last d :
    readyData d = false -> PollTrace x 1 false [EvGetFile x (Fulfilled d)]
| Poll_retry n d b evs :
    readyData d = false ->
    PollTrace x (S n) b evs ->
    PollTrace x (S (S n)) b (evs ++ [EvSetTimeout 3000; EvGetFile x (Fulfilled d)]).

(** The calls of one iteration of the second loop for file [x], most recent
    first, and the [collectionStatus] it writes. *)
Inductive Segment (cid x : string) : string -> list Event -> Prop :=
| Seg_not_processed evs :
    PollTrace x maxAttempts false evs ->
    Segment cid x "not-processed" evs
| Seg_added evs u :
    PollTrace x maxAttempts true evs ->
    Segment cid x "added" (EvPostKnowledge cid x (Fulfilled u) :: evs)
| Seg_collection_failed evs e :
    PollTrace x maxAttempts true evs ->
    Segment cid x "collection-failed" (EvPostKnowledge cid x (Rejected e) :: evs).

(** The second loop over entries with pairwise different ids: every entry
    gets the status of its own segment. *)
Inductive CollectRun (cid : string)
  : list SyncResult.t -> list SyncResult.t -> list Event -> Prop :=
| CollectRun_nil : CollectRun cid [] [] []
| CollectRun_cons r rs rs' st seg evs :
    Segment cid (SyncResult.openWebUIId r) st seg ->
    CollectRun cid rs rs' evs ->
    CollectRun cid (r :: rs)
      (SyncResult.withCollectionStatus (Some st) r :: rs') (evs ++ seg).

(** Two entries that differ at most in [collectionStatus]. *)
Definition sameUpload (r r' : SyncResult.t) : Prop :=
  r' = SyncResult.withCollectionStatus (SyncResult.collectionStatus r') r.

(** The values of [collectionStatus] the handler can write. *)
Definition statusVocabulary : list (option string) :=
  [None; Some "added"; Some "not-processed"; Some "collection-failed";
   Some "error"].

Definition knownStatus (r : SyncResult.t) : Prop :=
  In (SyncResult.collectionStatus r) statusVocabulary.

(** A call about file [x] in the second phase: a status check of [x] or an
    association of [x] with a collection. *)
Definition aboutFile (x : string) (ev : Event) : bool :=
  match ev with
  | EvGetFile y _ | EvPostKnowledge _ y _ => String.eqb y x
  | _ => false
  end.

(** The calls about file [x] in a history, most recent first. *)
Definition callsAbout (x : string) (h : History) : list Event :=
  List.filter (aboutFile x) h.

Definition statusCallFor (x : string) (ev : Event) : bool :=
  match ev with
  | EvGetFile y _ => String.eqb y x
  | _ => false
  end.

(** The number of status checks of file [x] in a history. *)
Definition statusCalls (x : string) (h : History) : nat :=
  length (List.filter (statusCallFor x) h).

Definition associationFor (x : string) (ev : Event) : bool :=
  match ev with
  | EvPostKnowledge _ y _ => String.eqb y x
  | _ => false
  end.

(** The associations of file [x] with a collection in a history. *)
Definition associationCalls (x : string) (h : History) : list Event :=
  List.filter (associationFor x) h.

(** The events of the second loop: pauses, status checks, associations. *)
Definition collectEvent (ev : Event) : Prop :=
  match ev with
  | EvFetch _ _ | EvPostFile _ _ _ _ => False
  | EvSetTimeout _ | EvGetFile _ _ | EvPostKnowledge _ _ _ => True
  end.


(** The extension of a path as the specification speaks of it: the text
    after the last dot; a path without a dot has none. *)
Fixpoint specExtension (p : string) : option string :=
  match p with
  | EmptyString => None
  | String c rest =>
      match specExtension rest with
      | Some e => Some e
      | None => if Ascii.eqb c "."%char then Some rest else None
      end
  end.

(** The extension table of the specification, in the order of the [case]
    labels. *)
Definition extensionTable : list (string * Classified) :=
  [("md", mkClassified "text/markdown" AsText);
   ("markdown", mkClassified "text/markdown" AsText);
   ("txt", mkClassified "text/plain" AsText);
   ("json", mkClassified "application/json" AsText);
   ("html", mkClassified "text/html" AsText);
   ("pdf", mkClassified "application/pdf" AsArrayBuffer);
   ("doc", mkClassified
      "application/vnd.openxmlformats-officedocument.wordprocessingml.document"
      AsArrayBuffer);
   ("docx", mkClassified
      "application/vnd.openxmlformats-officedocument.wordprocessingml.document"
      AsArrayBuffer);
   ("xls", mkClassified
      "application/vnd.openxmlformats-officedocument.spreadsheetml.sheet"
      AsArrayBuffer);
   ("xlsx", mkClassified
      "application/vnd.openxmlformats-officedocument.spreadsheetml.sheet"
      AsArrayBuffer);
   ("ppt", mkClassified
      "application/vnd.openxmlformats-officedocument.presentationml.presentation"
      AsArrayBuffer);
   ("pptx", mkClassified
      "application/vnd.openxmlformats-officedocument.presentationml.presentation"
      AsArrayBuffer);
   ("jpg", mkClassified "image/jpeg" AsArrayBuffer);
   ("jpeg", mkClassified "image/jpeg" AsArrayBuffer);
   ("png", mkClassified "image/png" AsArrayBuffer);
   ("gif", mkClassified "image/gif" AsArrayBuffer)].

Fixpoint tableLookup (e : string) (table : list (string * Classified))
  : option Classified :=
  match table with
  | [] => None
  | (k, c) :: table' => if String.eqb e k then Some c else tableLookup e table'
  end.

(** The content a response hands over when it is read as [t]. *)
Definition bodyContent (response : FetchResponse) (t : Transfer)
  : Settled Content :=
  match t with
  | AsText =>
      match text response with
      | Fulfilled s => Fulfilled (TextContent s)
      | Rejected e => Rejected e
      end
  | AsArrayBuffer =>
      match arrayBuffer response with
      | Fulfilled b => Fulfilled (BufferContent b)
      | Rejected e => Rejected e
      end
  end.

(** A string that is a sequence of strings taken from [patterns]. *)
Inductive Repeats (patterns : list string) : string -> Prop :=
| Repeats_nil : Repeats patterns EmptyString
| Repeats_cons p rest :
    p ∈ patterns -> Repeats patterns rest -> Repeats patterns (p +:+ rest).

(** The UTF-8 encoding of a code point. *)
Definition utf8 (cp : N) : string :=
  let byte (n : N) (rest : string) := String (ascii_of_N n) rest in
  if (cp <? 0x80)%N then byte cp EmptyString
  else if (cp <? 0x800)%N then
    byte (0xC0 + cp / 0x40)%N (byte (0x80 + cp mod 0x40)%N EmptyString)
  else if (cp <? 0x10000)%N then
    byte (0xE0 + cp / 0x1000)%N
      (byte (0x80 + (cp / 0x40) mod 0x40)%N
         (byte (0x80 + cp mod 0x40)%N EmptyString))
  else
    byte (0xF0 + cp / 0x40000)%N
      (byte (0x80 + (cp / 0x1000) mod 0x40)%N
         (byte (0x80 + (cp / 0x40) mod 0x40)%N
            (byte (0x80 + cp mod 0x40)%N EmptyString))).

(** White space as ECMAScript defines it for [trim]: the WhiteSpace
    characters (TAB, VT, FF, the byte order mark U+FEFF and the space
    separators of Unicode) and the LineTerminator characters (LF, CR,
    U+2028, U+2029). *)
Definition whiteSpaceCodePoints : list N :=
  [0x9; 0xA; 0xB; 0xC; 0xD; 0x20; 0xA0; 0x1680;
   0x2000; 0x2001; 0x2002; 0x2003; 0x2004; 0x2005; 0x2006; 0x2007; 0x2008;
   0x2009; 0x200A; 0x2028; 0x2029; 0x202F; 0x205F; 0x3000; 0xFEFF]%N.

(** A string of white-space characters only; the empty string is one. *)
Definition Blank (s : string) : Prop :=
  Repeats (map utf8 whiteSpaceCodePoints) s.


(** ** A sample deployment

    Five blobs.  [b.pdf] cannot be fetched.  Of the four uploaded files,
    [a.md] is ready at the second status check and is added, [c.txt] is
    completed with blank content for ever, the status check of [d.json]
    fails at the second attempt, and [e.png] is ready at once but the
    collection refuses it. *)

Module Sample.

Definition blob (name : string) (size : Z) : BlobFile.t :=
  BlobFile.mk ("https://store.example/" +:+ name) name size 1761775967000.

Definition blobs : list BlobFile.t :=
  [blob "a.md" 120; blob "b.pdf" 106895; blob "c.txt" 7; blob "d.json" 42;
   blob "e.png" 2048].

Definition pending : option FileData :=
  Some (mkFileData (Some "pending") None).
Definition extracted : option FileData :=
  Some (mkFileData (Some "completed") (Some "# Title")).
Definition blank : option FileData :=
  Some (mkFileData (Some "completed") (Some "   ")).

Definition world : World := {|
  list_blobs := fun _ => Fulfilled blobs;
  fetch := fun _ url =>
    if String.eqb url "https://store.example/b.pdf" then
      Fulfilled (mkFetchResponse false "Not Found"
                   (Fulfilled EmptyString) (Fulfilled []))
    else
      Fulfilled (mkFetchResponse true "OK"
                   (Fulfilled "hello") (Fulfilled [Byte.x68; Byte.x69]));
  axios_post_file := fun _ _ _ filename _ _ =>
    Fulfilled (Some ("id-" +:+ filename));
  axios_get_file := fun h _ _ x =>
    if String.eqb x "id-a.md" then
      Fulfilled (if Nat.leb 1 (statusCalls x h) then extracted else pending)
    else if String.eqb x "id-c.txt" then Fulfilled blank
    else if String.eqb x "id-d.json" then
      if Nat.leb 1 (statusCalls x h) then
        Rejected (ErrorObj "Request failed with status code 502")
      else Fulfilled pending
    else Fulfilled extracted;
  axios_post_knowledge := fun _ _ _ _ x =>
    if String.eqb x "id-e.png" then
      Rejected (ErrorObj "Request failed with status code 400")
    else Fulfilled tt;
  now := fun _ => "2025-10-30T14:33:31.715Z"
|}.

Definition env : Env :=
  mkEnv (Some "s3cret") (Some "blob-token") (Some "https://owui.example")
    (Some "api-key") (Some "kb-1").

Definition envNoCollection : Env :=
  mkEnv (Some "s3cret") (Some "blob-token") (Some "https://owui.example")
    (Some "api-key") None.

Definition envNoApiKey : Env :=
  mkEnv (Some "s3cret") (Some "blob-token") (Some "https://owui.example")
    None (Some "kb-1").

Definition authHeader : option string := Some "Bearer s3cret".

Definition entry (name x : string) (cs : option string) (size : Z)
  : SyncResult.t :=
  SyncResult.mk name "uploaded" x cs size 1761775967000.

Definition report : Summary :=
  mkSummary 5 4 1 1 "2025-10-30T14:33:31.715Z"
    [entry "a.md" "id-a.md" (Some "added") 120;
     entry "c.txt" "id-c.txt" (Some "not-processed") 7;
     entry "d.json" "id-d.json" (Some "not-processed") 42;
     entry "e.png" "id-e.png" (Some "collection-failed") 2048]
    [UploadError.mk "b.pdf" "Failed to fetch blob content: Not Found"].

Definition reportNoCollection : Summary :=
  mkSummary 5 4 1 0 "2025-10-30T14:33:31.715Z"
    [entry "a.md" "id-a.md" None 120;
     entry "c.txt" "id-c.txt" None 7;
     entry "d.json" "id-d.json" None 42;
     entry "e.png" "id-e.png" None 2048]
    [UploadError.mk "b.pdf" "Failed to fetch blob content: Not Found"].

Definition history : History := snd (POST world env authHeader).

(** The same store when no blob can be reached: every fetch is rejected
    with a network error. *)
Definition offline : World := {|
  list_blobs := fun _ => Fulfilled blobs;
  fetch := fun _ _ => Rejected (ErrorObj "fetch failed");
  axios_post_file := axios_post_file world;
  axios_get_file := axios_get_file world;
  axios_post_knowledge := axios_post_knowledge world;
  now := now world
|}.

Definition reportOffline : Summary :=
  mkSummary 5 0 5 0 "2025-10-30T14:33:31.715Z" []
    (map (fun b => UploadError.mk (BlobFile.pathname b) "fetch failed") blobs).

(** The same store in front of a service that answers every upload with
    the same id. *)
Definition sharedId : World := {|
  list_blobs := fun _ => Fulfilled blobs;
  fetch := fetch world;
  axios_post_file := fun _ _ _ _ _ _ => Fulfilled (Some "shared");
  axios_get_file := fun _ _ _ _ => Fulfilled extracted;
  axios_post_knowledge := fun _ _ _ _ _ => Fulfilled tt;
  now := now world
|}.

Definition reportSharedId : Summary :=
  mkSummary 5 4 1 1 "2025-10-30T14:33:31.715Z"
    [entry "a.md" "shared" (Some "added") 120;
     entry "c.txt" "shared" None 7;
     entry "d.json" "shared" None 42;
     entry "e.png" "shared" None 2048]
    [UploadError.mk "b.pdf" "Failed to fetch blob content: Not Found"].





End Sample.


(** * Vocabulary of the call histories *)

(** The id an upload answer yields: [uploadResponse.data?.id] when it is
    truthy. *)
Definition uploadedId (answer : Settled (option string)) : option string :=
  match answer with
  | Fulfilled (Some i) => if truthy (Some i) then Some i else None
  | _ => None
  end.

(** The calls one iteration of the upload loop makes for [blob], most
    recent first, with the id it obtains, if any: the fetch alone when it
    does not hand over a body, the fetch followed by the upload when it
    does. *)
Inductive BlobCalls (blob : BlobFile.t) : option string -> list Event -> Prop :=
| Calls_fetch_only r :
    (forall response,
       r = Fulfilled response -> ok response = true ->
       exists error,
         bodyContent response (transfer (classifyPath (BlobFile.pathname blob))) =
           Rejected error) ->
    BlobCalls blob None [EvFetch (BlobFile.url blob) r]
| Calls_posted response content answer :
    ok response = true ->
    bodyContent response (transfer (classifyPath (BlobFile.pathname blob))) =
      Fulfilled content ->
    BlobCalls blob (uploadedId answer)
      [EvPostFile (BlobFile.pathname blob)
         (contentType (classifyPath (BlobFile.pathname blob))) content answer;
       EvFetch (BlobFile.url blob) (Fulfilled response)].

(** The calls of the upload loop over a listing, most recent first, with the
    files it uploads and the errors it records. *)
Inductive UploadRun
  : list BlobFile.t -> list UploadedFile.t -> list UploadError.t ->
    list Event -> Prop :=
| UploadRun_nil : UploadRun [] [] [] []
| UploadRun_uploaded blob blobs i calls fs es evs :
    BlobCalls blob (Some i) calls ->
    UploadRun blobs fs es evs ->
    UploadRun (blob :: blobs)
      (UploadedFile.mk i (BlobFile.pathname blob) (BlobFile.size blob)
         (BlobFile.uploadedAt blob) :: fs)
      es (evs ++ calls)
| UploadRun_failed blob blobs e calls fs es evs :
    BlobCalls blob None calls ->
    UploadError.file e = BlobFile.pathname blob ->
    UploadRun blobs fs es evs ->
    UploadRun (blob :: blobs) fs (e :: es) (evs ++ calls).

(** The report accounts for the listing.  Walking the listing in order,
    with the calls of the upload loop, most recent first: a blob whose
    iteration obtained an id is the next entry of [results], which carries
    that id, the path, the size and the date of the blob and the status
    ["uploaded"]; a blob whose iteration obtained no id is the next entry of
    [errors], and is no entry of [results]. *)
Inductive Accounted
  : list BlobFile.t -> list SyncResult.t -> list UploadError.t ->
    list Event -> Prop :=
| Accounted_nil : Accounted [] [] [] []
| Accounted_uploaded blob blobs i calls r rs es evs :
    BlobCalls blob (Some i) calls ->
    SyncResult.file r = BlobFile.pathname blob ->
    SyncResult.status r = "uploaded" ->
    SyncResult.openWebUIId r = i ->
    SyncResult.size r = BlobFile.size blob ->
    SyncResult.uploadedAt r = BlobFile.uploadedAt blob ->
    Accounted blobs rs es evs ->
    Accounted (blob :: blobs) (r :: rs) es (evs ++ calls)
| Accounted_failed blob blobs e calls rs es evs :
    BlobCalls blob None calls ->
    UploadError.file e = BlobFile.pathname blob ->
    Accounted blobs rs es evs ->
    Accounted (blob :: blobs) rs (e :: es) (evs ++ calls).

(** The calls of the second loop over the uploaded files, most recent
    first: one segment per file, whatever the ids. *)
Inductive Segments (cid : string) : list UploadedFile.t -> list Event -> Prop :=
| Segments_nil : Segments cid [] []
| Segments_cons f fs st seg evs :
    Segment cid (UploadedFile.id f) st seg ->
    Segments cid fs evs ->
    Segments cid (f :: fs) (evs ++ seg).

(** The url of a fetch. *)
Definition fetchedUrl (ev : Event) : option string :=
  match ev with
  | EvFetch u _ => Some u
  | _ => None
  end.

(** The id an upload call obtained. *)
Definition obtainedId (ev : Event) : option string :=
  match ev with
  | EvPostFile _ _ _ answer => uploadedId answer
  | _ => None
  end.

(** The time a call spends waiting, in milliseconds. *)
Definition pauseOf (ev : Event) : Z :=
  match ev with
  | EvSetTimeout ms => ms
  | _ => 0
  end.

(** The time a run spends in [setTimeout]. *)
Definition pausedTime (h : History) : Z :=
  fold_right (fun ev t => pauseOf ev + t) 0 h.

Definition isStatusCall (ev : Event) : bool :=
  match ev with
  | EvGetFile _ _ => true
  | _ => false
  end.

Definition isAssociation (ev : Event) : bool :=
  match ev with
  | EvPostKnowledge _ _ _ => true
  | _ => false
  end.

Definition isFulfilledAssociation (ev : Event) : bool :=
  match ev with
  | EvPostKnowledge _ _ (Fulfilled _) => true
  | _ => false
  end.

(** The number of calls of a kind in a history. *)
Definition countCalls (kind : Event -> bool) (h : History) : nat :=
  length (List.filter kind h).


(** * The structured logger (route.ts, lines 5-83)

    The logger is modelled up to the object it hands to [JSON.stringify]
    and the console method it calls with the result. *)

(** The values that go into a log entry.  Numbers are integers here. *)
#[warnings="-register-all"]
Inductive JsValue : Type :=
| JUndefined
| JNull
| JBool (b : bool)
| JNumber (n : Z)
| JString (s : string)
| JObject (props : list (string * JsValue))
| JArray (items : list JsValue).

(** An object: its own properties in the order JavaScript enumerates
    them, no key twice.  That order is: the keys that are array indices,
    in ascending order, then the other keys in the order they were
    added. *)
Definition JsObject : Type := list (string * JsValue).

Definition isDigit (c : ascii) : bool :=
  let n := nat_of_ascii c in Nat.leb 48 n && Nat.leb n 57.

(** The number a string of decimal digits stands for, read after [acc]. *)
Fixpoint digitsValue (acc : N) (s : string) : option N :=
  match s with
  | EmptyString => Some acc
  | String c rest =>
      if isDigit c then
        digitsValue (10 * acc + N.of_nat (nat_of_ascii c - 48)) rest
      else None
  end.

(** An array index: the decimal numeral, without a leading zero, of an
    integer from 0 to 2^32 - 2. *)
Definition arrayIndex (k : string) : option N :=
  match k with
  | EmptyString => None
  | String c rest =>
      if Ascii.eqb c "0"%char && negb (String.eqb rest EmptyString) then None
      else
        match digitsValue 0 k with
        | Some n => if (n <? 4294967295)%N then Some n else None
        | None => None
        end
  end.

(** [o[k]] *)
Fixpoint getProp (k : string) (o : JsObject) : option JsValue :=
  match o with
  | [] => None
  | (k', v) :: o' => if String.eqb k' k then Some v else getProp k o'
  end.

(** Whether a new key [k] is enumerated before the key [k']. *)
Definition comesBefore (k k' : string) : bool :=
  match arrayIndex k, arrayIndex k' with
  | Some n, Some n' => (n <? n')%N
  | Some _, None => true
  | None, _ => false
  end.

(** The property [k] of [o] becomes [v], where it is. *)
Fixpoint updateProp (k : string) (v : JsValue) (o : JsObject) : JsObject :=
  match o with
  | [] => []
  | (k', v') :: o' =>
      if String.eqb k' k then (k', v) :: o' else (k', v') :: updateProp k v o'
  end.

(** A new property: an array index goes among the array indices, any other
    key to the end. *)
Fixpoint insertProp (k : string) (v : JsValue) (o : JsObject) : JsObject :=
  match o with
  | [] => [(k, v)]
  | (k', v') :: o' =>
      if comesBefore k k' then (k, v) :: o else (k', v') :: insertProp k v o'
  end.

(** [o[k] = v]: an existing property keeps its place. *)
Definition setProp (k : string) (v : JsValue) (o : JsObject) : JsObject :=
  match getProp k o with
  | Some _ => updateProp k v o
  | None => insertProp k v o
  end.

(** [{ ...o, ...src }]: the properties of [src] are set on a copy of [o],
    in their order. *)
Definition spread (o src : JsObject) : JsObject :=
  fold_left (fun acc kv => setProp (fst kv) (snd kv) acc) src o.

(** Truthiness of a value. *)
Definition jsTruthy (v : JsValue) : bool :=
  match v with
  | JUndefined | JNull => false
  | JBool b => b
  | JNumber n => negb (n =? 0)
  | JString s => negb (String.eqb s EmptyString)
  | JObject _ | JArray _ => true
  end.

(** What [serializeError] and [logger.error] can be handed, by the first
    of the tests of [serializeError] that holds: [axios.isAxiosError], with
    the fields the function reads ([error.response?.status] and the like
    are [undefined] when absent); [instanceof Error]; any other value. *)
Inductive Thrown : Type :=
| ThrownAxios (message : string) (status data code method url : JsValue)
| ThrownError (name message : string) (stack : JsValue)
| ThrownOther (v : JsValue).

Inductive LogLevel : Type := LevelInfo | LevelWarn | LevelError | LevelDebug.

Definition levelName (level : LogLevel) : string :=
  match level with
  | LevelInfo => "info"
  | LevelWarn => "warn"
  | LevelError => "error"
  | LevelDebug => "debug"
  end.

Inductive Console : Type := ConsoleLog | ConsoleWarn | ConsoleError.

Section Logger.

(** [String(v)], the conversion of the platform. *)
Variable toString : JsValue -> string.

Definition serializeError (error : Thrown) : JsValue :=
  match error with
  | ThrownAxios message status data code method url =>
      JObject [("type", JString "AxiosError"); ("message", JString message);
               ("status", status); ("data", data); ("code", code);
               ("method", method); ("url", url)]
  | ThrownError name message stack =>
      JObject [("type", JString name); ("message", JString message);
               ("stack", stack)]
  | ThrownOther (JObject props) => JObject props
  | ThrownOther (JArray items) => JArray items
  | ThrownOther v => JObject [("message", JString (toString v))]
  end.

(** [error ? ... : ...] on what was thrown. *)
Definition thrownTruthy (error : Thrown) : bool :=
  match error with
  | ThrownAxios _ _ _ _ _ _ | ThrownError _ _ _ => true
  | ThrownOther v => jsTruthy v
  end.

(** [new Date().toISOString()] at the time of the call, and the
    [requestId] the logger was created with. *)
Variables timestamp requestId : string.

Definition baseContext : JsObject :=
  [("requestId", JString requestId); ("route", JString "sync-documents")].

(** [emit(level, message, context = {})]: the object that is serialised
    and the console method that prints it. *)
Definition emit (level : LogLevel) (message : string)
    (context : option JsObject) : Console * JsObject :=
  let entry :=
    spread
      (spread
         [("timestamp", JString timestamp);
          ("level", JString (levelName level));
          ("message", JString message)]
         baseContext)
      (default [] context) in
  (match level with
   | LevelError => ConsoleError
   | LevelWarn => ConsoleWarn
   | _ => ConsoleLog
   end,
   entry).

Definition logger_info (message : string) (context : option JsObject) :=
  emit LevelInfo message context.

Definition logger_warn (message : string) (context : option JsObject) :=
  emit LevelWarn message context.

Definition logger_debug (message : string) (context : option JsObject) :=
  emit LevelDebug message context.

(** [emit("error", message, { ...context, error: error ?
    serializeError(error) : undefined })] *)
Definition logger_error (message : string) (error : Thrown)
    (context : option JsObject) :=
  emit LevelError message
    (Some
       (setProp "error"
          (if thrownTruthy error then serializeError error else JUndefined)
          (spread [] (default [] context)))).

End Logger.


(** * Properties *)


(** ** Phase 1 *)

Section Phase1.

Variable w : World.
Variables baseUrl apiKey : string.

(** One upload always starts with the fetch of the blob, and adds at most
    the upload call to it. *)
Lemma uploadBlob_history blob h :
  exists evs,
    snd (uploadBlob w baseUrl apiKey blob h) =
      evs ++ EvFetch (BlobFile.url blob) (fetch w h (BlobFile.url blob)) :: h
    /\ Forall uploadEvent evs.
Proof.
  unfold uploadBlob, bind, await_fetch, await_post_file, throw, ret.
  destruct (fetch w h (BlobFile.url blob)) as [e|response]; simpl.
  { exists []. split; [reflexivity | constructor]. }
  destruct (ok response); simpl.
  2:{ exists []. split; [reflexivity | constructor]. }
  unfold readBody, bind, settle, ret.
  destruct (transfer _).
  - destruct (text response) as [e|s]; simpl.
    { exists []. split; [reflexivity | constructor]. }
    match goal with |- context [axios_post_file ?a ?b ?c ?d ?e ?f ?g] =>
      destruct (axios_post_file a b c d e f g) as [e'|[i|]] eqn:Hp end; simpl.
    + eexists [_]. split; [reflexivity | repeat constructor].
    + destruct (negb _); eexists [_]; (split; [reflexivity | repeat constructor]).
    + eexists [_]. split; [reflexivity | repeat constructor].
  - destruct (arrayBuffer response) as [e|s]; simpl.
    { exists []. split; [reflexivity | constructor]. }
    match goal with |- context [axios_post_file ?a ?b ?c ?d ?e ?f ?g] =>
      destruct (axios_post_file a b c d e f g) as [e'|[i|]] eqn:Hp end; simpl.
    + eexists [_]. split; [reflexivity | repeat constructor].
    + destruct (negb _); eexists [_]; (split; [reflexivity | repeat constructor]).
    + eexists [_]. split; [reflexivity | repeat constructor].
Qed.

(** What the loop adds to its three arrays and to the history. *)
Lemma uploadLoop_spec blobs : forall acc h,
  exists fs es evs,
    uploadLoop w baseUrl apiKey blobs (acc, h) =
      (mkUploads (uploadResults acc ++ map resultOf fs)
         (uploadErrors acc ++ es) (uploadedFiles acc ++ fs),
       evs ++ h)
    /\ Reported blobs (map resultOf fs) es
    /\ Forall uploadEvent evs.
Proof.
  induction blobs as [|blob blobs IH]; intros acc h.
  - exists [], [], []. simpl. rewrite !app_nil_r. destruct acc.
    split; [reflexivity|]. split; constructor.
  - unfold uploadLoop. simpl.
    destruct (uploadBlob_history blob h) as (bevs & Hh & Hbevs).
    destruct (uploadBlob w baseUrl apiKey blob h) as [[error|fileId] h'] eqn:Hb; simpl in Hh; subst h'.
    + match goal with |- context [fold_left _ blobs (?a, ?hh)] =>
        destruct (IH a hh) as (fs & es & evs & Heq & Hrep & Hevs) end.
      unfold uploadLoop in Heq. simpl in Heq.
      exists fs, (UploadError.mk (BlobFile.pathname blob) (errorMessage error) :: es),
        (evs ++ bevs ++ [EvFetch (BlobFile.url blob) (fetch w h (BlobFile.url blob))]).
      split; [|split].
      * rewrite Heq. rewrite <- !app_assoc. simpl. reflexivity.
      * apply Reported_failed; [reflexivity | assumption].
      * rewrite !Forall_app. repeat split; try assumption. repeat constructor.
    + match goal with |- context [fold_left _ blobs (?a, ?hh)] =>
        destruct (IH a hh) as (fs & es & evs & Heq & Hrep & Hevs) end.
      unfold uploadLoop in Heq. simpl in Heq.
      exists (UploadedFile.mk fileId (BlobFile.pathname blob)
                (BlobFile.size blob) (BlobFile.uploadedAt blob) :: fs), es,
        (evs ++ bevs ++ [EvFetch (BlobFile.url blob) (fetch w h (BlobFile.url blob))]).
      split; [|split].
      * rewrite Heq. rewrite <- !app_assoc. simpl. reflexivity.
      * simpl. apply Reported_uploaded; try reflexivity. assumption.
      * rewrite !Forall_app. repeat split; try assumption. repeat constructor.
Qed.

End Phase1.

(** ** Phase 2 *)

Section Phase2.

Variable w : World.
Variables baseUrl apiKey : string.

Lemma pollStatus_trace x n : forall h,
  exists evs,
    pollStatus w baseUrl apiKey x n h =
      (fst (pollStatus w baseUrl apiKey x n h), evs ++ h)
    /\ PollTrace x n (fst (pollStatus w baseUrl apiKey x n h)) evs.
Proof.
  induction n as [|n IH]; intros h.
  - exists []. simpl. split; [reflexivity | constructor].
  - simpl. unfold await_get_file.
    destruct (axios_get_file w h baseUrl apiKey x) as [e|d] eqn:Hget.
    + eexists [_]. simpl. split; [reflexivity | constructor].
    + fold (readyData d). destruct (readyData d) eqn:Hready.
      * eexists [_]. simpl. split; [reflexivity | by constructor].
      * destruct n as [|n].
        -- eexists [_]. simpl. split; [reflexivity | by constructor].
        -- match goal with |- context [pollStatus _ _ _ _ _ ?hh] =>
             destruct (IH hh) as (evs & Heq & Htr) end.
           exists (evs ++ [EvSetTimeout 3000; EvGetFile x (Fulfilled d)]).
           split.
           ++ rewrite Heq at 1. simpl. by rewrite <- app_assoc.
           ++ by apply Poll_retry.
Qed.

Lemma sameUpload_refl r : sameUpload r r.
Proof. by destruct r. Qed.

Lemma sameUpload_trans r1 r2 r3 :
  sameUpload r1 r2 -> sameUpload r2 r3 -> sameUpload r1 r3.
Proof.
  unfold sameUpload. destruct r1, r2, r3; simpl.
  intros [= -> -> -> -> ->] [= -> -> -> -> ->]. reflexivity.
Qed.

Lemma setCollectionStatus_frame i s (R : list SyncResult.t) :
  Forall2 sameUpload R (setCollectionStatus i s R).
Proof.
  unfold setCollectionStatus. destruct (0 <=? i).
  - generalize (Z.to_nat i) as k. induction R as [|r R IH]; intros k.
    + constructor.
    + destruct k as [|k]; simpl.
      * constructor; [by destruct r|].
        apply Forall_Forall2_diag, Forall_forall. intros; apply sameUpload_refl.
      * constructor; [apply sameUpload_refl | apply IH].
  - apply Forall_Forall2_diag, Forall_forall. intros; apply sameUpload_refl.
Qed.

Lemma setCollectionStatus_known i s (R : list SyncResult.t) :
  In s statusVocabulary ->
  Forall knownStatus R -> Forall knownStatus (setCollectionStatus i s R).
Proof.
  intros Hs. unfold setCollectionStatus. destruct (0 <=? i); [|done].
  generalize (Z.to_nat i) as k. induction R as [|r R IH]; intros k HR.
  - constructor.
  - inversion HR; subst. destruct k as [|k]; simpl.
    + constructor; [exact Hs | assumption].
    + constructor; [assumption | by apply IH].
Qed.

(** One iteration writes one status from the vocabulary into at most
    one entry and only adds calls to the history. *)
Lemma collectStep_shape cid R h uf :
  exists i st evs,
    collectStep w baseUrl apiKey cid (R, h) uf =
      (setCollectionStatus i (Some st) R, evs ++ h)
    /\ i = findIndex (UploadedFile.id uf) R
    /\ Segment cid (UploadedFile.id uf) st evs.
Proof.
  unfold collectStep, collectFile.
  destruct (pollStatus_trace (UploadedFile.id uf) maxAttempts h)
    as (evs & Heq & Htr).
  rewrite Heq.
  destruct (fst (pollStatus w baseUrl apiKey (UploadedFile.id uf) maxAttempts h));
    simpl.
  - unfold await_post_knowledge.
    destruct (axios_post_knowledge w (evs ++ h) baseUrl apiKey cid
                (UploadedFile.id uf)) as [e|u] eqn:Hadd.
    + eexists _, _, (_ :: evs). split; [reflexivity|].
      split; [reflexivity | by constructor].
    + eexists _, _, (_ :: evs). split; [reflexivity|].
      split; [reflexivity | by constructor].
  - eexists _, _, evs. split; [reflexivity|].
    split; [reflexivity | by constructor].
Qed.

Lemma Segment_vocabulary cid x st evs :
  Segment cid x st evs -> In (Some st) statusVocabulary.
Proof. destruct 1; simpl; auto. Qed.

(** The second loop keeps the entries in place and touches nothing but
    [collectionStatus]. *)
Lemma collectLoop_frame cid files : forall R h,
  Forall knownStatus R ->
  exists R' evs,
    fold_left (collectStep w baseUrl apiKey cid) files (R, h) = (R', evs ++ h)
    /\ Forall2 sameUpload R R'
    /\ Forall knownStatus R'.
Proof.
  induction files as [|uf files IH]; intros R h HR.
  - exists R, []. simpl. split; [reflexivity|]. split; [|assumption].
    apply Forall_Forall2_diag, Forall_forall. intros; apply sameUpload_refl.
  - cbn [fold_left].
    destruct (collectStep_shape cid R h uf) as (i & st & evs & Heq & _ & Hseg).
    rewrite Heq.
    destruct (IH (setCollectionStatus i (Some st) R) (evs ++ h))
      as (R' & evs' & Heq' & Hsame & Hknown).
    { apply setCollectionStatus_known; [|assumption].
      by eapply Segment_vocabulary. }
    exists R', (evs' ++ evs). rewrite <- app_assoc.
    split; [exact Heq'|]. split; [|assumption].
    eapply Forall2_trans; [| apply setCollectionStatus_frame | exact Hsame].
    intros ???; apply sameUpload_trans.
Qed.

End Phase2.

(** ** The whole run *)

Section Run.

Variable w : World.
Variables baseUrl apiKey : string.

Lemma collectionPhase_frame cid up h :
  Forall knownStatus (uploadResults up) ->
  exists R' evs,
    collectionPhase w baseUrl apiKey cid up h = (R', evs ++ h)
    /\ Forall2 sameUpload (uploadResults up) R'
    /\ Forall knownStatus R'.
Proof.
  intros Hknown.
  assert (Hclear : exists R' evs,
    (clearCollectionStatus (uploadResults up), h) = (R', evs ++ h)
    /\ Forall2 sameUpload (uploadResults up) R' /\ Forall knownStatus R').
  { exists (clearCollectionStatus (uploadResults up)), [].
    split; [reflexivity|]. unfold clearCollectionStatus. split.
    - apply Forall2_fmap_r, Forall_Forall2_diag, Forall_forall.
      intros r _. by destruct r.
    - apply Forall_fmap, Forall_forall. intros r _. by left. }
  unfold collectionPhase. destruct cid as [c|]; [|exact Hclear].
  destruct (truthy (Some c) && _); [|exact Hclear].
  destruct (collectLoop_frame w baseUrl apiKey c (uploadedFiles up)
              (uploadResults up) (snd (sleep 5000 h)) Hknown)
    as (R' & evs & Heq & Hsame & Hk).
  exists R', (evs ++ [EvSetTimeout 5000]). rewrite <- app_assoc.
  split; [exact Heq | by split].
Qed.

(** Without a collection id the second phase makes no call and sets every
    [collectionStatus] to [null]. *)
Lemma collectionPhase_skipped cid up h :
  truthy cid = false ->
  collectionPhase w baseUrl apiKey cid up h =
    (clearCollectionStatus (uploadResults up), h).
Proof.
  intros Hcid. unfold collectionPhase. destruct cid as [c|]; [|reflexivity].
  by rewrite Hcid.
Qed.

(** The parts a run is made of. *)
Lemma syncBlobs_spec cid blobs :
  exists fs es evs1 R' evs2,
    uploadLoop w baseUrl apiKey blobs (noUploads, []) =
      (mkUploads (map resultOf fs) es fs, evs1)
    /\ Reported blobs (map resultOf fs) es
    /\ Forall uploadEvent evs1
    /\ collectionPhase w baseUrl apiKey cid (mkUploads (map resultOf fs) es fs)
         evs1 = (R', evs2 ++ evs1)
    /\ Forall2 sameUpload (map resultOf fs) R'
    /\ Forall knownStatus R'
    /\ syncBlobs w baseUrl apiKey cid blobs =
         (mkSummary
            (Z.of_nat (length blobs))
            (Z.of_nat (length (filter (fun r => isUploaded r = true) R')))
            (Z.of_nat (length es))
            (Z.of_nat (length (filter (fun r => isAdded r = true) R')))
            (now w (evs2 ++ evs1)) R' es,
          evs2 ++ evs1).
Proof.
  destruct (uploadLoop_spec w baseUrl apiKey blobs noUploads [])
    as (fs & es & evs1 & Hup0 & Hrep & Hevs1).
  assert (Hup : uploadLoop w baseUrl apiKey blobs (noUploads, []) =
                  (mkUploads (map resultOf fs) es fs, evs1)).
  { etrans; [exact Hup0|]. cbn. by rewrite app_nil_r. }
  destruct (collectionPhase_frame cid (mkUploads (map resultOf fs) es fs) evs1)
    as (R' & evs2 & Hcol & Hsame & Hknown).
  { simpl. apply Forall_fmap, Forall_forall. intros f _. by left. }
  exists fs, es, evs1, R', evs2.
  repeat (split; [assumption|]).
  unfold syncBlobs. rewrite Hup, Hcol. reflexivity.
Qed.

End Run.

Lemma Reported_length blobs rs es :
  Reported blobs rs es -> length blobs = (length rs + length es)%nat.
Proof. induction 1; simpl; lia. Qed.

Lemma Reported_sameUpload blobs rs es :
  Reported blobs rs es ->
  forall rs', Forall2 sameUpload rs rs' -> Reported blobs rs' es.
Proof.
  induction 1 as [|blob r blobs rs es Hf Hs Hz Hu Hrep IH|blob e blobs rs es Hf Hrep IH];
    intros rs' Hsame.
  - inversion Hsame; subst. constructor.
  - inversion Hsame as [|r0 r' rs0 rs1 Hr Hrs]; subst.
    apply Reported_uploaded; [..|by apply IH];
      rewrite Hr; by destruct r.
  - apply Reported_failed; [assumption | by apply IH].
Qed.

(** A response that carries a summary comes from a listing that went
    through and from the run over the blobs it gave. *)
Lemma POST_report_inv w env authHeader code s h :
  POST w env authHeader = (mkResponse code (SummaryBody s), h) ->
  code = 200
  /\ unauthorized env authHeader = false
  /\ missingEnvVars env = []
  /\ exists blobs,
       list_blobs w (the (BLOB_READ_WRITE_TOKEN env)) = Fulfilled blobs
       /\ syncBlobs w (the (OPEN_WEB_UI_BASE_URL env))
            (the (OPEN_WEB_UI_API_KEY env)) (KNOWLEDGE_COLLECTION_ID env) blobs
          = (s, h).
Proof.
  unfold POST. destruct (unauthorized env authHeader); [discriminate|].
  destruct (missingEnvVars env) as [|v vs] eqn:Hmiss; simpl; [|discriminate].
  destruct (list_blobs w _) as [e|blobs]; [discriminate|].
  destruct (syncBlobs _ _ _ _ _) as [s' h'] eqn:Hsync.
  intros [= <- <- <-]. repeat (split; [reflexivity|]).
  exists blobs. by split.
Qed.

(** ** The sample run *)

Example sample_run_report :
  fst (POST Sample.world Sample.env Sample.authHeader) = mkResponse 200 (SummaryBody Sample.report).
Proof. vm_compute. reflexivity. Qed.

Example sample_run_report_no_collection :
  fst (POST Sample.world Sample.envNoCollection Sample.authHeader) =
    mkResponse 200 (SummaryBody Sample.reportNoCollection).
Proof. vm_compute. reflexivity. Qed.


(** * The report *)

Lemma uploaded_entries fs R' :
  Forall2 sameUpload (map resultOf fs) R' ->
  Forall (fun r => SyncResult.status r = "uploaded") R'.
Proof.
  rewrite Forall2_fmap_l.
  induction 1 as [|f r fs0 R0 Hr _ IH]; constructor; [|exact IH].
  unfold compose, sameUpload in Hr. rewrite Hr. reflexivity.
Qed.

Lemma filter_all {A} (P : A -> Prop) `{forall x, Decision (P x)} (l : list A) :
  Forall P l -> filter P l = l.
Proof.
  induction 1 as [|x l Hx _ IH]; [reflexivity|].
  rewrite filter_cons_True by assumption. by rewrite IH.
Qed.

Lemma none_added (R : list SyncResult.t) :
  Forall (fun r => SyncResult.collectionStatus r = None) R ->
  filter (fun r => isAdded r = true) R = [].
Proof.
  induction 1 as [|r R Hr _ IH]; [reflexivity|].
  rewrite filter_cons_False; [exact IH|].
  unfold isAdded. rewrite Hr. discriminate.
Qed.

(** C2: for every run that ends with a report, [successful + failed] is
    [totalFiles], the number of listed blobs, and [addedToCollection] lies
    between [0] and [successful]. *)
Theorem summary_counters w env authHeader code s h blobs :
  POST w env authHeader = (mkResponse code (SummaryBody s), h) ->
  list_blobs w (the (BLOB_READ_WRITE_TOKEN env)) = Fulfilled blobs ->
  totalFiles s = Z.of_nat (length blobs)
  /\ successful s + failed s = totalFiles s
  /\ 0 <= addedToCollection s <= successful s.
Proof.
  intros Hpost Hlist.
  apply POST_report_inv in Hpost as (_ & _ & _ & blobs' & Hlist' & Hsync).
  rewrite Hlist in Hlist'. injection Hlist' as <-.
  destruct (syncBlobs_spec w (the (OPEN_WEB_UI_BASE_URL env))
              (the (OPEN_WEB_UI_API_KEY env)) (KNOWLEDGE_COLLECTION_ID env) blobs)
    as (fs & es & evs1 & R' & evs2 & _ & Hrep & _ & _ & Hsame & _ & Hs).
  rewrite Hs in Hsync. injection Hsync as <- <-. cbn [totalFiles successful failed addedToCollection].
  assert (Hall : filter (fun r => isUploaded r = true) R' = R').
  { apply filter_all. eapply Forall_impl; [exact (uploaded_entries _ _ Hsame)|].
    intros r Hr. unfold isUploaded. by rewrite Hr. }
  rewrite Hall.
  pose proof (Reported_length _ _ _ Hrep) as Hlen.
  pose proof (Forall2_length _ _ _ Hsame) as Hlen'.
  pose proof (length_filter (fun r => isAdded r = true) R') as Hadd.
  rewrite Hlen, <- Hlen'. lia.
Qed.

Lemma summary_counters_witness :
  totalFiles Sample.report = Z.of_nat (length Sample.blobs)
  /\ successful Sample.report + failed Sample.report = totalFiles Sample.report
  /\ 0 <= addedToCollection Sample.report <= successful Sample.report.
Proof.
  apply (summary_counters Sample.world Sample.env Sample.authHeader 200
           Sample.report Sample.history Sample.blobs).
  - vm_compute. reflexivity.
  - vm_compute. reflexivity.
Defined.

(** C10: in every report, every entry of [results] has [status] equal to
    ["uploaded"], and its [collectionStatus] is [null], ["added"],
    ["not-processed"], ["collection-failed"] or ["error"]. *)
Theorem results_status_vocabulary w env authHeader code s h :
  POST w env authHeader = (mkResponse code (SummaryBody s), h) ->
  Forall (fun r =>
            SyncResult.status r = "uploaded"
            /\ In (SyncResult.collectionStatus r)
                 [None; Some "added"; Some "not-processed";
                  Some "collection-failed"; Some "error"])
    (results s).
Proof.
  intros Hpost.
  apply POST_report_inv in Hpost as (_ & _ & _ & blobs & _ & Hsync).
  destruct (syncBlobs_spec w (the (OPEN_WEB_UI_BASE_URL env))
              (the (OPEN_WEB_UI_API_KEY env)) (KNOWLEDGE_COLLECTION_ID env) blobs)
    as (fs & es & evs1 & R' & evs2 & _ & _ & _ & _ & Hsame & Hknown & Hs).
  rewrite Hs in Hsync. injection Hsync as <- <-. cbn [results].
  apply Forall_and. split; [exact (uploaded_entries _ _ Hsame) | exact Hknown].
Qed.

Lemma results_status_vocabulary_witness :
  Forall (fun r =>
            SyncResult.status r = "uploaded"
            /\ In (SyncResult.collectionStatus r)
                 [None; Some "added"; Some "not-processed";
                  Some "collection-failed"; Some "error"])
    (results Sample.report).
Proof.
  apply (results_status_vocabulary Sample.world Sample.env Sample.authHeader 200
           Sample.report Sample.history).
  vm_compute. reflexivity.
Defined.

(** C7: when no collection id is configured, every entry of the report (one
    per uploaded file) has [collectionStatus] [null], nothing counts as
    added, and the run makes no call besides the fetches and uploads of the
    first phase: no pause, no status check, no association. *)
Theorem no_collection_id_null_status w env authHeader code s h :
  POST w env authHeader = (mkResponse code (SummaryBody s), h) ->
  truthy (KNOWLEDGE_COLLECTION_ID env) = false ->
  Forall (fun r =>
            SyncResult.status r = "uploaded"
            /\ SyncResult.collectionStatus r = None) (results s)
  /\ addedToCollection s = 0
  /\ Forall (fun ev =>
               match ev with
               | EvFetch _ _ | EvPostFile _ _ _ _ => True
               | EvSetTimeout _ | EvGetFile _ _ | EvPostKnowledge _ _ _ => False
               end) h.
Proof.
  intros Hpost Hcid.
  apply POST_report_inv in Hpost as (_ & _ & _ & blobs & _ & Hsync).
  destruct (syncBlobs_spec w (the (OPEN_WEB_UI_BASE_URL env))
              (the (OPEN_WEB_UI_API_KEY env)) (KNOWLEDGE_COLLECTION_ID env) blobs)
    as (fs & es & evs1 & R' & evs2 & _ & _ & Hevs1 & Hcol & Hsame & _ & Hs).
  rewrite Hs in Hsync. injection Hsync as <- <-.
  rewrite collectionPhase_skipped in Hcol by assumption.
  cbn [uploadResults] in Hcol.
  assert (HR : R' = clearCollectionStatus (map resultOf fs)) by congruence.
  assert (Hh : evs2 ++ evs1 = evs1) by congruence.
  cbn [results addedToCollection]. rewrite Hh. subst R'.
  assert (Hnull : Forall (fun r => SyncResult.status r = "uploaded"
                                   /\ SyncResult.collectionStatus r = None)
                    (clearCollectionStatus (map resultOf fs))).
  { unfold clearCollectionStatus. rewrite !Forall_fmap.
    apply Forall_forall. intros f _. by split. }
  split; [exact Hnull|]. split.
  - rewrite none_added; [reflexivity|].
    eapply Forall_impl; [exact Hnull|]. by intros r [_ Hr].
  - eapply Forall_impl; [exact Hevs1|]. intros [] Hev; exact Hev.
Qed.

Lemma no_collection_id_null_status_witness :
  Forall (fun r =>
            SyncResult.status r = "uploaded"
            /\ SyncResult.collectionStatus r = None)
    (results Sample.reportNoCollection)
  /\ addedToCollection Sample.reportNoCollection = 0
  /\ Forall (fun ev =>
               match ev with
               | EvFetch _ _ | EvPostFile _ _ _ _ => True
               | EvSetTimeout _ | EvGetFile _ _ | EvPostKnowledge _ _ _ => False
               end)
       (snd (POST Sample.world Sample.envNoCollection Sample.authHeader)).
Proof.
  apply (no_collection_id_null_status Sample.world Sample.envNoCollection
           Sample.authHeader 200).
  - vm_compute. reflexivity.
  - reflexivity.
Defined.

(** C1, as stated, fails: in the sample run [b.pdf] is listed and reaches
    the upload stage, where its fetch fails, and no entry of [results]
    stands for it. *)
Lemma results_skip_failed_uploads :
  fst (POST Sample.world Sample.env Sample.authHeader) =
    mkResponse 200 (SummaryBody Sample.report)
  /\ list_blobs Sample.world (the (BLOB_READ_WRITE_TOKEN Sample.env)) =
       Fulfilled Sample.blobs
  /\ In "b.pdf" (map BlobFile.pathname Sample.blobs)
  /\ (exists r, In (EvFetch "https://store.example/b.pdf" r) Sample.history)
  /\ ~ In "b.pdf" (map SyncResult.file (results Sample.report))
  /\ length (results Sample.report) <> length Sample.blobs.
Proof.
  split; [vm_compute; reflexivity|].
  split; [reflexivity|].
  split; [vm_compute; tauto|].
  split; [eexists; vm_compute; tauto|].
  split.
  - vm_compute. intros [H|[H|[H|[H|[]]]]]; discriminate H.
  - vm_compute. discriminate.
Qed.


(** * Classification *)

Lemma split_dot_spec p :
  match specExtension p with
  | None => split_dot p = [p]
  | Some e => exists segs, segs <> [] /\ split_dot p = segs ++ [e]
  end.
Proof.
  induction p as [|c rest IH]; [reflexivity|].
  cbn [specExtension split_dot].
  destruct (specExtension rest) as [e|].
  - destruct IH as (segs & Hne & Heq). rewrite Heq.
    destruct (Ascii.eqb c "."%char).
    + exists (EmptyString :: segs). by split.
    + destruct segs as [|s segs]; [done|].
      exists (String c s :: segs). by split.
  - rewrite IH. destruct (Ascii.eqb c "."%char).
    + exists [EmptyString]. by split.
    + reflexivity.
Qed.

(** With a dot in the path the handler looks at the lower-cased extension;
    without one it looks at the whole lower-cased path. *)
Lemma fileExtension_spec p :
  fileExtension p =
    Some (toLowerCase (match specExtension p with Some e => e | None => p end)).
Proof.
  unfold fileExtension, pop. pose proof (split_dot_spec p) as H.
  destruct (specExtension p) as [e|].
  - destruct H as (segs & _ & ->). by rewrite last_snoc.
  - by rewrite H.
Qed.

(** The [switch] is the table of the specification, with
    [application/octet-stream] read as an array buffer for every other
    string. *)
Lemma classify_table e :
  classify (Some e) =
    default (mkClassified "application/octet-stream" AsArrayBuffer)
      (tableLookup e extensionTable).
Proof.
  unfold classify, extensionTable, tableLookup.
  repeat (destruct (String.eqb e _); [reflexivity|]; cbn [orb]).
  reflexivity.
Qed.

Example classify_upper_case :
  classifyPath "reports/Q3.PDF" = mkClassified "application/pdf" AsArrayBuffer.
Proof. reflexivity. Qed.

Example classify_no_extension :
  classifyPath "LICENSE" = mkClassified "application/octet-stream" AsArrayBuffer.
Proof. reflexivity. Qed.

Example classify_unknown_extension :
  classifyPath "backup.tar.gz" =
    mkClassified "application/octet-stream" AsArrayBuffer.
Proof. reflexivity. Qed.

(** C8, at the input where the handler departs from it: the path [md] has
    no extension, and the handler classifies it as markdown text instead
    of [application/octet-stream] read as an array buffer. *)
Theorem classify_bare_name :
  specExtension "md" = None
  /\ classifyPath "md" = mkClassified "text/markdown" AsText
  /\ classifyPath "md" <> mkClassified "application/octet-stream" AsArrayBuffer.
Proof. repeat split. discriminate. Qed.

(** * The shapes of the response *)

(** C9, at the input where the handler departs from it: an authorised
    request to a deployment without [OPEN_WEB_UI_API_KEY] gets the status
    500 with only an [error] field; there is neither [details] nor a
    [timestamp], and no call has been made. *)
Theorem config_error_has_no_timestamp :
  unauthorized Sample.envNoApiKey Sample.authHeader = false
  /\ POST Sample.world Sample.envNoApiKey Sample.authHeader =
       (mkResponse 500
          (ErrorBody "Missing required environment variables" None None), []).
Proof. split; reflexivity. Qed.

(** What holds of the shapes: a request is refused (401), or the
    configuration is incomplete (500, [error] only), or the listing is
    rejected (500 with [details] and [timestamp]), or the run gives its
    summary (200).  The exits before the listing make no call. *)
Lemma POST_shapes w env authHeader :
  let '(response, h) := POST w env authHeader in
  (unauthorized env authHeader = true
   /\ response = mkResponse 401 (ErrorBody "Unauthorized" None None) /\ h = [])
  \/ (unauthorized env authHeader = false /\ missingEnvVars env <> []
      /\ response =
           mkResponse 500
             (ErrorBody "Missing required environment variables" None None)
      /\ h = [])
  \/ (unauthorized env authHeader = false /\ missingEnvVars env = []
      /\ exists error,
           list_blobs w (the (BLOB_READ_WRITE_TOKEN env)) = Rejected error
           /\ response =
                mkResponse 500
                  (ErrorBody "Sync operation failed" (Some (errorMessage error))
                     (Some (now w [])))
           /\ h = [])
  \/ (unauthorized env authHeader = false /\ missingEnvVars env = []
      /\ exists blobs s,
           list_blobs w (the (BLOB_READ_WRITE_TOKEN env)) = Fulfilled blobs
           /\ response = mkResponse 200 (SummaryBody s)).
Proof.
  unfold POST. destruct (unauthorized env authHeader); [by left|].
  destruct (missingEnvVars env) as [|v vs] eqn:Hmiss; cbn [length Z.of_nat Z.ltb Z.compare].
  2:{ right; left. by repeat split. }
  destruct (list_blobs w _) as [error|blobs] eqn:Hlist.
  - right; right; left. repeat (split; [reflexivity|]). by exists error.
  - destruct (syncBlobs _ _ _ _ _) as [s h] eqn:Hsync.
    right; right; right. repeat (split; [reflexivity|]). by exists blobs, s.
Qed.


(** * Failure isolation in the upload stage *)

Lemma readBody_content response t h :
  readBody response t h = (bodyContent response t, h).
Proof.
  unfold readBody, bodyContent, bind, settle, ret.
  destruct t; [destruct (text response) | destruct (arrayBuffer response)];
    reflexivity.
Qed.

(** What one upload gives, read off the answers it gets. *)
Lemma uploadBlob_outcome w baseUrl apiKey blob h :
  let c := classifyPath (BlobFile.pathname blob) in
  let h1 := EvFetch (BlobFile.url blob) (fetch w h (BlobFile.url blob)) :: h in
  match fetch w h (BlobFile.url blob) with
  | Rejected error =>
      uploadBlob w baseUrl apiKey blob h = (Rejected error, h1)
  | Fulfilled response =>
      if ok response then
        match bodyContent response (transfer c) with
        | Rejected error =>
            uploadBlob w baseUrl apiKey blob h = (Rejected error, h1)
        | Fulfilled content =>
            let answer :=
              axios_post_file w h1 baseUrl apiKey (BlobFile.pathname blob)
                (contentType c) content in
            let h2 :=
              EvPostFile (BlobFile.pathname blob) (contentType c) content answer
                :: h1 in
            match answer with
            | Rejected error =>
                uploadBlob w baseUrl apiKey blob h = (Rejected error, h2)
            | Fulfilled fileId =>
                if truthy fileId then
                  uploadBlob w baseUrl apiKey blob h = (Fulfilled (the fileId), h2)
                else
                  uploadBlob w baseUrl apiKey blob h =
                    (Rejected
                       (ErrorObj "Failed to get file ID from upload response"),
                     h2)
            end
        end
      else
        uploadBlob w baseUrl apiKey blob h =
          (Rejected
             (ErrorObj ("Failed to fetch blob content: " +:+ statusText response)),
           h1)
  end.
Proof.
  unfold uploadBlob, classifyPath, bind, await_fetch, await_post_file, throw, ret.
  destruct (fetch w h (BlobFile.url blob)) as [e|response]; [reflexivity|].
  destruct (ok response); [|reflexivity]. cbn [negb].
  rewrite readBody_content.
  destruct (bodyContent response _) as [e|content]; [reflexivity|].
  destruct (axios_post_file w _ baseUrl apiKey _ _ content) as [e|[i|]];
    [reflexivity| |reflexivity].
  destruct (truthy (Some i)); reflexivity.
Qed.

(** C3: take any listing and any of its blobs, [B], with the blobs [pre]
    listed before it and [post] after it.  Whatever happened to the blobs
    of [pre] (their run is any [up0], [h0]), [B] gets its turn: it is
    fetched, and what becomes of it depends on the answers to its own
    calls only.

    - A fetch answered with a non-success status: no upload call, and the
      entry [{file, error: "Failed to fetch blob content: " + statusText}]
      in [uploadErrors].
    - A successful fetch whose body can be read: [B] is uploaded under its
      path and the content type of its classification.  An answer with a
      non-empty id gives the entry of [B] in [uploadResults], with that id;
      an answer without one gives the entry
      [{file, error: "Failed to get file ID from upload response"}] in
      [uploadErrors].
    - A rejected fetch, body read or upload: the entry in [uploadErrors]
      with the message of the thrown [Error], or ["Unknown error"] when
      what was thrown is no [Error].

    In every case the loop goes on with the blobs of [post] (their calls
    are [later]), and in the end every listed blob has exactly one entry,
    in [uploadResults] or in [uploadErrors]. *)
Theorem upload_failures_are_isolated w baseUrl apiKey pre B post up h :
  uploadLoop w baseUrl apiKey (pre ++ B :: post) (noUploads, []) = (up, h) ->
  exists up0 h0 later,
    uploadLoop w baseUrl apiKey pre (noUploads, []) = (up0, h0)
    /\ (let failure message :=
          uploadErrors up !! length (uploadErrors up0) =
            Some (UploadError.mk (BlobFile.pathname B) message) in
        let thrown error :=
          match error with
          | ErrorObj message => failure message
          | NonError => failure "Unknown error"
          end in
        let fetched := EvFetch (BlobFile.url B) (fetch w h0 (BlobFile.url B)) in
        let mime := contentType (classifyPath (BlobFile.pathname B)) in
        match fetch w h0 (BlobFile.url B) with
        | Rejected error => h = later ++ fetched :: h0 /\ thrown error
        | Fulfilled response =>
            if ok response then
              match
                bodyContent response
                  (transfer (classifyPath (BlobFile.pathname B)))
              with
              | Rejected error => h = later ++ fetched :: h0 /\ thrown error
              | Fulfilled content =>
                  let answer :=
                    axios_post_file w (fetched :: h0) baseUrl apiKey
                      (BlobFile.pathname B) mime content in
                  h = later ++
                        EvPostFile (BlobFile.pathname B) mime content answer
                        :: fetched :: h0
                  /\ match answer with
                     | Rejected error => thrown error
                     | Fulfilled None =>
                         failure "Failed to get file ID from upload response"
                     | Fulfilled (Some fileId) =>
                         if String.eqb fileId EmptyString then
                           failure "Failed to get file ID from upload response"
                         else
                           uploadResults up !! length (uploadResults up0) =
                             Some (SyncResult.mk (BlobFile.pathname B) "uploaded"
                                     fileId None (BlobFile.size B)
                                     (BlobFile.uploadedAt B))
                     end
              end
            else
              h = later ++ fetched :: h0
              /\ failure
                   ("Failed to fetch blob content: " +:+ statusText response)
        end)
    /\ (length (uploadResults up) + length (uploadErrors up))%nat =
         length (pre ++ B :: post).
Proof.
  intros Hrun.
  destruct (uploadLoop_spec w baseUrl apiKey (pre ++ B :: post) noUploads [])
    as (fsA & esA & evsA & HA & HrepA & _).
  pose proof (eq_trans (eq_sym Hrun) HA) as HA'. clear HA.
  injection HA' as Hup _.
  apply Reported_length in HrepA.
  assert (Hlen : (length (uploadResults up) + length (uploadErrors up))%nat =
                   length (pre ++ B :: post)).
  { rewrite Hup. cbn [uploadResults uploadErrors noUploads app].
    rewrite length_map in *. lia. }
  clear Hup HrepA fsA esA evsA.
  unfold uploadLoop in Hrun. rewrite fold_left_app in Hrun. cbn [fold_left] in Hrun.
  destruct (fold_left (uploadStep w baseUrl apiKey) pre (noUploads, []))
    as [up0 h0] eqn:Hpre.
  exists up0, h0.
  pose proof (uploadBlob_outcome w baseUrl apiKey B h0) as Hout.
  cbn zeta in Hout.
  unfold uploadStep at 2 in Hrun.
  destruct (uploadBlob w baseUrl apiKey B h0) as [r hB] eqn:HB.
  assert (Hshape : exists later,
    h = later ++ hB
    /\ match r with
       | Fulfilled fileId =>
           uploadResults up !! length (uploadResults up0) =
             Some (SyncResult.mk (BlobFile.pathname B) "uploaded" fileId None
                     (BlobFile.size B) (BlobFile.uploadedAt B))
       | Rejected (ErrorObj message) =>
           uploadErrors up !! length (uploadErrors up0) =
             Some (UploadError.mk (BlobFile.pathname B) message)
       | Rejected NonError =>
           uploadErrors up !! length (uploadErrors up0) =
             Some (UploadError.mk (BlobFile.pathname B) "Unknown error")
       end).
  { destruct r as [error|fileId].
    - match type of Hrun with fold_left _ post (?a, ?hh) = _ =>
        destruct (uploadLoop_spec w baseUrl apiKey post a hh)
          as (fs & es & evs & Heq & _ & _) end.
      unfold uploadLoop in Heq.
      pose proof (eq_trans (eq_sym Hrun) Heq) as Heq'.
      injection Heq' as Hu Hh. exists evs. split; [exact Hh|].
      rewrite Hu. cbn [uploadErrors]. rewrite <- app_assoc.
      destruct error; by apply list_lookup_middle.
    - match type of Hrun with fold_left _ post (?a, ?hh) = _ =>
        destruct (uploadLoop_spec w baseUrl apiKey post a hh)
          as (fs & es & evs & Heq & _ & _) end.
      unfold uploadLoop in Heq.
      pose proof (eq_trans (eq_sym Hrun) Heq) as Heq'.
      injection Heq' as Hu Hh. exists evs. split; [exact Hh|].
      rewrite Hu. cbn [uploadResults]. rewrite <- app_assoc.
      by apply list_lookup_middle. }
  destruct Hshape as (later & Hh & Hrec).
  exists later. split; [exact Hpre|]. split; [|exact Hlen].
  cbn zeta.
  destruct (fetch w h0 (BlobFile.url B)) as [error|response].
  { injection Hout as -> ->. by split. }
  destruct (ok response).
  2:{ injection Hout as -> ->. by split. }
  destruct (bodyContent response _) as [error|content].
  { injection Hout as -> ->. by split. }
  cbn zeta in Hout.
  destruct (axios_post_file w _ baseUrl apiKey _ _ content) as [error|[fileId|]].
  - injection Hout as -> ->. by split.
  - unfold truthy in Hout. destruct (String.eqb fileId EmptyString);
      cbn [negb] in Hout; injection Hout as -> ->; by split.
  - cbn [truthy] in Hout. injection Hout as -> ->. by split.
Qed.

(** In the sample run, [b.pdf] comes after [a.md] and its fetch is answered
    with 404 Not Found: the failure is recorded with the message of the
    handler, and the three blobs listed after it are handled all the
    same. *)
Lemma upload_failures_are_isolated_witness :
  let up :=
    fst (uploadLoop Sample.world "https://owui.example" "api-key" Sample.blobs
           (noUploads, [])) in
  uploadErrors up !! 0%nat =
    Some (UploadError.mk "b.pdf" "Failed to fetch blob content: Not Found")
  /\ (length (uploadResults up) + length (uploadErrors up))%nat = 5%nat.
Proof.
  destruct (upload_failures_are_isolated Sample.world "https://owui.example"
              "api-key" [Sample.blob "a.md" 120] (Sample.blob "b.pdf" 106895)
              [Sample.blob "c.txt" 7; Sample.blob "d.json" 42;
               Sample.blob "e.png" 2048]
              (fst (uploadLoop Sample.world "https://owui.example" "api-key"
                      Sample.blobs (noUploads, [])))
              (snd (uploadLoop Sample.world "https://owui.example" "api-key"
                      Sample.blobs (noUploads, []))))
    as (up0 & h0 & later & Hpre & Hcase & Hlen).
  - vm_compute. reflexivity.
  - assert (Hup0 : uploadErrors up0 = []).
    { assert (Heq : up0 =
                fst (uploadLoop Sample.world "https://owui.example" "api-key"
                       [Sample.blob "a.md" 120] (noUploads, [])))
        by (by rewrite Hpre).
      rewrite Heq. vm_compute. reflexivity. }
    cbn zeta in Hcase. rewrite Hup0 in Hcase.
    change (fetch Sample.world h0 (BlobFile.url (Sample.blob "b.pdf" 106895)))
      with (Fulfilled (mkFetchResponse false "Not Found"
                         (Fulfilled EmptyString) (@Fulfilled (list Byte.byte) [])))
      in Hcase.
    cbn [ok] in Hcase. destruct Hcase as [_ Hentry].
    split; [exact Hentry | exact Hlen].
Defined.


(** * Readiness polling and collection assignment *)

Lemma aboutFile_status x r : aboutFile x (EvGetFile x r) = true.
Proof. apply String.eqb_refl. Qed.

Lemma aboutFile_association c x r : aboutFile x (EvPostKnowledge c x r) = true.
Proof. apply String.eqb_refl. Qed.

(** The calls of the polling loop: status checks of [x] and pauses. *)
Lemma PollTrace_events x n b evs :
  PollTrace x n b evs ->
  Forall (fun ev => ev = EvSetTimeout 3000 \/ exists r, ev = EvGetFile x r) evs.
Proof.
  induction 1 as [|n e|n d Hd|d Hd|n d b evs Hd _ IH].
  - constructor.
  - constructor; [right; by eexists | constructor].
  - constructor; [right; by eexists | constructor].
  - constructor; [right; by eexists | constructor].
  - apply Forall_app. split; [exact IH|].
    constructor; [by left|]. constructor; [right; by eexists | constructor].
Qed.

(** Without [fileReady], no status check saw the file ready. *)
Lemma PollTrace_not_ready x n b evs :
  PollTrace x n b evs -> b = false ->
  forall y d, In (EvGetFile y (Fulfilled d)) evs -> readyData d = false.
Proof.
  induction 1 as [|n e|n d' Hd|d' Hd|n d' b evs Hd _ IH]; intros Hb y d Hin.
  - destruct Hin.
  - destruct Hin as [[=]|[]].
  - discriminate.
  - destruct Hin as [Hin|[]]. injection Hin as _ <-. exact Hd.
  - apply in_app_iff in Hin as [Hin|[Hin|[Hin|[]]]].
    + by eapply IH.
    + discriminate Hin.
    + injection Hin as _ <-. exact Hd.
Qed.





(** The calls of one iteration for [y] say nothing about another file. *)
Lemma Segment_foreign cid y st seg x :
  Segment cid y st seg -> y <> x -> callsAbout x seg = [].
Proof.
  intros Hseg Hne.
  assert (Hy : String.eqb y x = false) by by apply String.eqb_neq.
  assert (Hpoll : forall b evs, PollTrace y maxAttempts b evs -> callsAbout x evs = []).
  { intros b evs Htr. apply PollTrace_events in Htr.
    induction Htr as [|ev evs [->|[r ->]] _ IH]; [reflexivity|exact IH|].
    unfold callsAbout in *. cbn [List.filter aboutFile]. by rewrite Hy. }
  destruct Hseg as [evs Htr|evs u Htr|evs e Htr];
    unfold callsAbout in *; cbn [List.filter aboutFile]; rewrite ?Hy;
    by eapply Hpoll.
Qed.

Lemma callsAbout_app x h1 h2 :
  callsAbout x (h1 ++ h2) = callsAbout x h1 ++ callsAbout x h2.
Proof. apply List.filter_app. Qed.

Lemma callsAbout_In x ev h :
  In ev h -> aboutFile x ev = true -> In ev (callsAbout x h).
Proof. intros. by apply List.filter_In. Qed.


Lemma callsAbout_association x h :
  associationCalls x h = associationCalls x (callsAbout x h).
Proof.
  unfold associationCalls, callsAbout. induction h as [|ev h IH]; [reflexivity|].
  cbn [List.filter].
  destruct ev as [| | |y r|c y r]; cbn [associationFor aboutFile]; try exact IH.
  - destruct (String.eqb y x) eqn:Hy; cbn [List.filter associationFor];
      by rewrite IH.
  - destruct (String.eqb y x) eqn:Hy; cbn [List.filter associationFor];
      rewrite ?Hy; by rewrite IH.
Qed.

(** The second loop says nothing about a file that has no entry. *)
Lemma CollectRun_foreign cid rs rs' evs x :
  CollectRun cid rs rs' evs ->
  ~ In x (map SyncResult.openWebUIId rs) -> callsAbout x evs = [].
Proof.
  induction 1 as [|r rs rs' st seg evs Hseg _ IH]; intros Hnot; [reflexivity|].
  rewrite callsAbout_app, IH.
  - eapply Segment_foreign; [exact Hseg|]. intros Heq. apply Hnot. by left.
  - intros Hin. apply Hnot. by right.
Qed.

(** With pairwise different ids, the entry at every index gets the status
    of its own iteration, and the calls about its file are those of that
    iteration. *)
Lemma CollectRun_at cid rs rs' evs :
  CollectRun cid rs rs' evs ->
  NoDup (map SyncResult.openWebUIId rs) ->
  forall i r, rs !! i = Some r ->
    exists st seg,
      rs' !! i = Some (SyncResult.withCollectionStatus (Some st) r)
      /\ Segment cid (SyncResult.openWebUIId r) st seg
      /\ callsAbout (SyncResult.openWebUIId r) evs =
           callsAbout (SyncResult.openWebUIId r) seg
      /\ (forall ev, In ev seg -> In ev evs).
Proof.
  induction 1 as [|r0 rs rs' st seg evs Hseg Hrun IH]; intros Hnd i r Hi.
  - destruct i; discriminate Hi.
  - cbn [map] in Hnd. apply NoDup_cons in Hnd as [Hfresh Hnd].
    destruct i as [|i]; cbn in Hi.
    + injection Hi as <-. exists st, seg. split; [reflexivity|].
      split; [exact Hseg|]. split.
      * rewrite callsAbout_app.
        rewrite (CollectRun_foreign _ _ _ _ _ Hrun); [reflexivity|].
        by rewrite <- list_elem_of_In.
      * intros ev Hev. apply in_app_iff. by right.
    + destruct (IH Hnd i r Hi) as (st' & seg' & Hr' & Hseg' & Hcalls & Hsub).
      exists st', seg'. split; [exact Hr'|]. split; [exact Hseg'|]. split.
      * rewrite callsAbout_app, Hcalls.
        rewrite (Segment_foreign _ _ _ _ (SyncResult.openWebUIId r) Hseg).
        -- by rewrite app_nil_r.
        -- intros Heq. apply Hfresh. rewrite Heq.
           apply list_elem_of_fmap. exists r. split; [reflexivity|].
           by eapply list_elem_of_lookup_2.
      * intros ev Hev. apply in_app_iff. left. by apply Hsub.
Qed.


Lemma findIndex_middle pre r rs :
  ~ In (SyncResult.openWebUIId r) (map SyncResult.openWebUIId pre) ->
  findIndex (SyncResult.openWebUIId r) (pre ++ r :: rs) = Z.of_nat (length pre).
Proof.
  unfold findIndex. induction pre as [|p pre IH]; intros Hnot; cbn.
  - by rewrite decide_True.
  - rewrite decide_False by (intros Heq; apply Hnot; by left).
    destruct (list_find _ (pre ++ r :: rs)) as [[i y]|] eqn:Hfind; cbn in *.
    + assert (Hi : Z.of_nat i = Z.of_nat (length pre))
        by (apply IH; intros Hin; apply Hnot; by right).
      lia.
    + assert (Hi : -1 = Z.of_nat (length pre))
        by (apply IH; intros Hin; apply Hnot; by right).
      lia.
Qed.

Lemma setCollectionStatus_middle s pre r (rs : list SyncResult.t) :
  setCollectionStatus (Z.of_nat (length pre)) s (pre ++ r :: rs) =
    pre ++ SyncResult.withCollectionStatus s r :: rs.
Proof.
  unfold setCollectionStatus.
  destruct (Z.leb_spec 0 (Z.of_nat (length pre))) as [_|Hneg]; [|lia].
  rewrite Nat2Z.id.
  replace (length pre) with (length pre + 0)%nat at 1 by lia.
  by rewrite alter_app_r.
Qed.

(** The second loop over entries with pairwise different ids. *)
Lemma collectLoop_run w baseUrl apiKey cid files : forall pre rs h,
  map SyncResult.openWebUIId rs = map UploadedFile.id files ->
  NoDup (map SyncResult.openWebUIId (pre ++ rs)) ->
  exists rs' evs,
    fold_left (collectStep w baseUrl apiKey cid) files (pre ++ rs, h) =
      (pre ++ rs', evs ++ h)
    /\ CollectRun cid rs rs' evs.
Proof.
  induction files as [|uf files IH]; intros pre rs h Hids Hnd.
  - destruct rs; [|discriminate]. exists [], []. split; [reflexivity | constructor].
  - destruct rs as [|r rs]; [discriminate|]. injection Hids as Hid Hids.
    cbn [fold_left].
    destruct (collectStep_shape w baseUrl apiKey cid (pre ++ r :: rs) h uf)
      as (i & st & seg & Hstep & Hi & Hseg).
    rewrite <- Hid in Hi, Hseg.
    rewrite findIndex_middle in Hi.
    2:{ rewrite map_app in Hnd. cbn [map] in Hnd.
        apply NoDup_app in Hnd as (_ & Hdisj & _).
        intros Hin. apply (Hdisj (SyncResult.openWebUIId r)).
        - by apply list_elem_of_In.
        - by left. }
    subst i. rewrite setCollectionStatus_middle in Hstep.
    destruct (IH (pre ++ [SyncResult.withCollectionStatus (Some st) r]) rs
                (seg ++ h) Hids) as (rs' & evs & Hfold & Hrun).
    { rewrite <- app_assoc. cbn [app].
      rewrite map_app in *. cbn [map] in *. by destruct r. }
    exists (SyncResult.withCollectionStatus (Some st) r :: rs'), (evs ++ seg).
    split; [|by constructor].
    etrans; [exact (f_equal _ Hstep)|].
    rewrite <- !(app_assoc pre [_]) in Hfold. cbn [app] in Hfold.
    rewrite <- app_assoc. exact Hfold.
Qed.

Lemma sameUpload_ids R R' :
  Forall2 sameUpload R R' ->
  map SyncResult.openWebUIId R' = map SyncResult.openWebUIId R.
Proof.
  induction 1 as [|r r' R R' Hr _ IH]; [reflexivity|].
  cbn [map]. rewrite IH, Hr. by destruct r.
Qed.

Lemma callsAbout_upload x evs : Forall uploadEvent evs -> callsAbout x evs = [].
Proof.
  induction 1 as [|ev evs Hev _ IH]; [reflexivity|].
  destruct ev; try destruct Hev; exact IH.
Qed.

Lemma Segment_events cid x st seg :
  Segment cid x st seg ->
  Forall (fun ev => ev = EvSetTimeout 3000 \/ aboutFile x ev = true) seg.
Proof.
  assert (Hpoll : forall b evs, PollTrace x maxAttempts b evs ->
            Forall (fun ev => ev = EvSetTimeout 3000 \/ aboutFile x ev = true) evs).
  { intros b evs Htr. eapply Forall_impl; [exact (PollTrace_events _ _ _ _ Htr)|].
    intros ev [->|[r ->]]; [by left|right; apply aboutFile_status]. }
  destruct 1 as [evs Htr|evs u Htr|evs e Htr]; [by eapply Hpoll|..];
    (constructor; [right; apply aboutFile_association | by eapply Hpoll]).
Qed.

Lemma CollectRun_events cid rs rs' evs :
  CollectRun cid rs rs' evs -> Forall collectEvent evs.
Proof.
  induction 1 as [|r rs rs' st seg evs Hseg _ IH]; [constructor|].
  apply Forall_app. split; [exact IH|].
  eapply Forall_impl; [exact (Segment_events _ _ _ _ Hseg)|].
  intros ev [->|Hev]; [exact I|]. by destruct ev.
Qed.

Lemma CollectRun_lookup cid rs rs' evs i r' :
  CollectRun cid rs rs' evs -> rs' !! i = Some r' -> is_Some (rs !! i).
Proof.
  intros Hrun. revert i.
  induction Hrun as [|r rs rs' st seg evs _ _ IH]; intros i Hi.
  - destruct i; discriminate Hi.
  - destruct i as [|i]; [by eexists|]. by apply IH.
Qed.

(** A run with a collection id, read as the upload loop followed by the
    second loop, when the ids of the report are pairwise different. *)
Lemma syncBlobs_collect w baseUrl apiKey cid blobs s h :
  syncBlobs w baseUrl apiKey cid blobs = (s, h) ->
  truthy cid = true ->
  NoDup (map SyncResult.openWebUIId (results s)) ->
  exists c fs es evs1 evs2 pause,
    cid = Some c
    /\ uploadLoop w baseUrl apiKey blobs (noUploads, []) =
         (mkUploads (map resultOf fs) es fs, evs1)
    /\ Forall uploadEvent evs1
    /\ CollectRun c (map resultOf fs) (results s) evs2
    /\ h = evs2 ++ pause ++ evs1
    /\ Forall (fun ev => ev = EvSetTimeout 5000) pause.
Proof.
  intros Hsync Hcid Hnd.
  destruct (syncBlobs_spec w baseUrl apiKey cid blobs)
    as (fs & es & evs1 & R' & evs2 & Hup & _ & Hevs1 & Hcol & Hsame & _ & Hs).
  pose proof (eq_trans (eq_sym Hsync) Hs) as Heq. injection Heq as -> ->.
  cbn [results] in *.
  destruct cid as [c|]; [|discriminate].
  unfold collectionPhase in Hcol. rewrite Hcid in Hcol.
  cbn [uploadResults uploadedFiles andb] in Hcol.
  exists c, fs, es, evs1.
  destruct fs as [|f fs]; cbn [length Z.of_nat Z.ltb Z.compare] in Hcol.
  - injection Hcol as <- Hh. exists [], []. cbn [app].
    split_and!; [done | exact Hup | exact Hevs1 | constructor | by symmetry
                | constructor].
  - destruct (collectLoop_run w baseUrl apiKey c (f :: fs) []
                (map resultOf (f :: fs)) (snd (sleep 5000 evs1)))
      as (rs' & evs & Hfold & Hrun).
    { rewrite <- list_fmap_compose. reflexivity. }
    { cbn [app]. by rewrite <- (sameUpload_ids _ _ Hsame). }
    cbn [app] in Hfold.
    pose proof (eq_trans (eq_sym Hcol) Hfold) as Heq. injection Heq as -> Hh.
    exists evs, [EvSetTimeout 5000].
    split_and!; [done | exact Hup | exact Hevs1 | exact Hrun | exact Hh
                | by repeat constructor].
Qed.


Lemma callsAbout_pause x pause :
  Forall (fun ev => ev = EvSetTimeout 5000) pause -> callsAbout x pause = [].
Proof. induction 1 as [|ev pause -> _ IH]; [reflexivity | exact IH]. Qed.

(** The view of a run that the properties of the second phase rest on. *)
Lemma report_entries w baseUrl apiKey cid blobs s h :
  syncBlobs w baseUrl apiKey cid blobs = (s, h) ->
  truthy cid = true ->
  NoDup (map SyncResult.openWebUIId (results s)) ->
  exists c up h1 h2,
    cid = Some c
    /\ uploadLoop w baseUrl apiKey blobs (noUploads, []) = (up, h1)
    /\ h = h2 ++ h1
    /\ Forall collectEvent h2
    /\ (forall i r, results s !! i = Some r ->
          exists r0 st seg,
            uploadResults up !! i = Some r0
            /\ SyncResult.status r0 = "uploaded"
            /\ r = SyncResult.withCollectionStatus (Some st) r0
            /\ Segment c (SyncResult.openWebUIId r) st seg
            /\ callsAbout (SyncResult.openWebUIId r) h =
                 callsAbout (SyncResult.openWebUIId r) seg
            /\ (forall ev, In ev seg -> In ev h))
    /\ (forall x ev, In ev h -> aboutFile x ev = true ->
          exists i r, results s !! i = Some r /\ SyncResult.openWebUIId r = x).
Proof.
  intros Hsync Hcid Hnd.
  destruct (syncBlobs_collect _ _ _ _ _ _ _ Hsync Hcid Hnd)
    as (c & fs & es & evs1 & evs2 & pause & -> & Hup & Hevs1 & Hrun & -> & Hpause).
  assert (Hids : map SyncResult.openWebUIId (results s) =
                 map SyncResult.openWebUIId (map resultOf fs)).
  { clear -Hrun. induction Hrun as [|r rs rs' st seg evs _ _ IH]; [reflexivity|].
    cbn [map]. rewrite IH. by destruct r. }
  assert (Hnd0 : NoDup (map SyncResult.openWebUIId (map resultOf fs)))
    by by rewrite <- Hids.
  exists c, (mkUploads (map resultOf fs) es fs), evs1, (evs2 ++ pause).
  split; [reflexivity|]. split; [exact Hup|].
  split; [by rewrite <- app_assoc|].
  split.
  { apply Forall_app. split; [by eapply CollectRun_events|].
    eapply Forall_impl; [exact Hpause|]. by intros ev ->. }
  split.
  - intros i r Hi. cbn [uploadResults].
    destruct (CollectRun_lookup _ _ _ _ _ _ Hrun Hi) as [r0 Hr0].
    destruct (CollectRun_at _ _ _ _ Hrun Hnd0 i r0 Hr0)
      as (st & seg & Hr & Hseg & Hcalls & Hsub).
    assert (r = SyncResult.withCollectionStatus (Some st) r0) as -> by congruence.
    exists r0, st, seg.
    split; [exact Hr0|]. split.
    { apply list_lookup_fmap_Some in Hr0 as (f & -> & _). reflexivity. }
    split; [reflexivity|].
    assert (Hid : SyncResult.openWebUIId
                    (SyncResult.withCollectionStatus (Some st) r0) =
                  SyncResult.openWebUIId r0) by by destruct r0.
    rewrite Hid. split; [exact Hseg|]. split.
    + rewrite !callsAbout_app, Hcalls, (callsAbout_pause _ _ Hpause),
        (callsAbout_upload _ _ Hevs1). by rewrite !app_nil_r.
    + intros ev Hev. apply in_app_iff. left. by apply Hsub.
  - intros x ev Hev Habout.
    assert (Hin : In x (map SyncResult.openWebUIId (map resultOf fs))).
    { destruct (decide (x ∈ map SyncResult.openWebUIId (map resultOf fs)))
        as [Hx|Hx]; [by apply list_elem_of_In|].
      exfalso.
      assert (Hnone : callsAbout x (evs2 ++ pause ++ evs1) = []).
      { rewrite !callsAbout_app, (callsAbout_pause _ _ Hpause),
          (callsAbout_upload _ _ Hevs1).
        rewrite (CollectRun_foreign _ _ _ _ x Hrun); [reflexivity|].
        by rewrite <- list_elem_of_In. }
      pose proof (callsAbout_In x ev _ Hev Habout) as Hcontra.
      rewrite Hnone in Hcontra. destruct Hcontra. }
    rewrite <- Hids in Hin. apply list_elem_of_In, list_elem_of_fmap in Hin
      as (r & -> & Hr).
    apply list_elem_of_lookup in Hr as (i & Hi). by exists i, r.
Qed.

(** A run that made a call of the second phase had a collection id. *)
Lemma syncBlobs_collecting w baseUrl apiKey cid blobs s h ev :
  syncBlobs w baseUrl apiKey cid blobs = (s, h) ->
  In ev h -> collectEvent ev -> truthy cid = true.
Proof.
  intros Hsync Hev Hcol.
  destruct (truthy cid) eqn:Hcid; [reflexivity|]. exfalso.
  destruct (syncBlobs_spec w baseUrl apiKey cid blobs)
    as (fs & es & evs1 & R' & evs2 & _ & _ & Hevs1 & Hphase & _ & _ & Hs).
  pose proof (eq_trans (eq_sym Hsync) Hs) as Heq. injection Heq as _ ->.
  rewrite collectionPhase_skipped in Hphase by assumption.
  injection Hphase as _ Hh. rewrite <- Hh in Hev.
  rewrite Forall_forall in Hevs1. apply list_elem_of_In, Hevs1 in Hev.
  by destruct ev.
Qed.


Lemma PollTrace_no_association x n b evs c y a :
  PollTrace x n b evs -> ~ In (EvPostKnowledge c y a) evs.
Proof.
  intros Htr Hin. apply PollTrace_events in Htr.
  rewrite Forall_forall in Htr. apply list_elem_of_In, Htr in Hin.
  destruct Hin as [[=]|[r [=]]].
Qed.







(** * More on the two phases *)

(** ** The calls of the upload loop *)

Lemma uploadBlob_calls w baseUrl apiKey blob h :
  exists calls,
    snd (uploadBlob w baseUrl apiKey blob h) = calls ++ h
    /\ match fst (uploadBlob w baseUrl apiKey blob h) with
       | Fulfilled i => BlobCalls blob (Some i) calls
       | Rejected _ => BlobCalls blob None calls
       end.
Proof.
  pose proof (uploadBlob_outcome w baseUrl apiKey blob h) as Hout.
  cbn zeta in Hout.
  destruct (fetch w h (BlobFile.url blob)) as [error|response] eqn:Hfetch.
  { rewrite Hout. eexists [_]. split; [reflexivity|].
    apply Calls_fetch_only. intros response [=]. }
  destruct (ok response) eqn:Hok.
  2:{ rewrite Hout. eexists [_]. split; [reflexivity|].
      apply Calls_fetch_only. intros response' [= <-]. congruence. }
  destruct (bodyContent response _) as [error|content] eqn:Hbody.
  { rewrite Hout. eexists [_]. split; [reflexivity|].
    apply Calls_fetch_only. intros response' [= <-] _. by exists error. }
  cbn zeta in Hout.
  destruct (axios_post_file w _ baseUrl apiKey _ _ content) as [error|fileId]
    eqn:Hanswer.
  { rewrite Hout. eexists [_; _]. split; [reflexivity|].
    exact (Calls_posted blob response content (Rejected error) Hok Hbody). }
  destruct (truthy fileId) eqn:Hid; rewrite Hout; (eexists [_; _]);
    (split; [reflexivity|]); cbn [fst].
  - pose proof (Calls_posted blob response content (Fulfilled fileId) Hok Hbody)
      as Hcalls.
    destruct fileId as [i|]; [|discriminate]. cbn [uploadedId] in Hcalls.
    rewrite Hid in Hcalls. exact Hcalls.
  - pose proof (Calls_posted blob response content (Fulfilled fileId) Hok Hbody)
      as Hcalls.
    destruct fileId as [i|]; cbn [uploadedId] in Hcalls;
      rewrite ?Hid in Hcalls; exact Hcalls.
Qed.

Lemma uploadLoop_run w baseUrl apiKey blobs : forall acc h,
  exists fs es evs,
    uploadLoop w baseUrl apiKey blobs (acc, h) =
      (mkUploads (uploadResults acc ++ map resultOf fs)
         (uploadErrors acc ++ es) (uploadedFiles acc ++ fs),
       evs ++ h)
    /\ UploadRun blobs fs es evs.
Proof.
  induction blobs as [|blob blobs IH]; intros acc h.
  - exists [], [], []. cbn. rewrite !app_nil_r. destruct acc.
    split; [reflexivity | constructor].
  - unfold uploadLoop. cbn [fold_left]. unfold uploadStep at 2.
    destruct (uploadBlob_calls w baseUrl apiKey blob h) as (calls & Hh & Hcalls).
    destruct (uploadBlob w baseUrl apiKey blob h) as [[error|fileId] h'] eqn:Hb;
      cbn [fst snd] in Hh, Hcalls; subst h'.
    + match goal with |- context [fold_left _ blobs (?a, ?hh)] =>
        destruct (IH a hh) as (fs & es & evs & Heq & Hrun) end.
      unfold uploadLoop in Heq. cbn [uploadResults uploadErrors uploadedFiles] in Heq.
      exists fs,
        (UploadError.mk (BlobFile.pathname blob) (errorMessage error) :: es),
        (evs ++ calls).
      split.
      * etrans; [exact Heq|]. by rewrite <- !app_assoc.
      * by apply UploadRun_failed.
    + match goal with |- context [fold_left _ blobs (?a, ?hh)] =>
        destruct (IH a hh) as (fs & es & evs & Heq & Hrun) end.
      unfold uploadLoop in Heq. cbn [uploadResults uploadErrors uploadedFiles] in Heq.
      exists (UploadedFile.mk fileId (BlobFile.pathname blob)
                (BlobFile.size blob) (BlobFile.uploadedAt blob) :: fs), es,
        (evs ++ calls).
      split.
      * etrans; [exact Heq|]. by rewrite <- !app_assoc.
      * by apply UploadRun_uploaded.
Qed.

(** ** The calls of the second loop, whatever the ids *)

Lemma collectLoop_segments w baseUrl apiKey cid files : forall R h,
  exists R' evs,
    fold_left (collectStep w baseUrl apiKey cid) files (R, h) = (R', evs ++ h)
    /\ Segments cid files evs.
Proof.
  induction files as [|uf files IH]; intros R h.
  - exists R, []. split; [reflexivity | constructor].
  - cbn [fold_left].
    destruct (collectStep_shape w baseUrl apiKey cid R h uf)
      as (i & st & seg & Hstep & _ & Hseg).
    destruct (IH (setCollectionStatus i (Some st) R) (seg ++ h))
      as (R' & evs & Hfold & Hsegs).
    exists R', (evs ++ seg). split; [|by econstructor].
    etrans; [exact (f_equal _ Hstep)|]. rewrite <- app_assoc. exact Hfold.
Qed.

(** The parts of a run: the upload loop, then, when a collection id is
    configured and a file was uploaded, the pause of 5000 ms and one
    segment per uploaded file. *)
Lemma run_shape w baseUrl apiKey cid blobs s h :
  syncBlobs w baseUrl apiKey cid blobs = (s, h) ->
  exists fs h1 h2,
    UploadRun blobs fs (errors s) h1
    /\ Forall2 sameUpload (map resultOf fs) (results s)
    /\ h = h2 ++ h1
    /\ ((exists c segs,
           cid = Some c /\ truthy cid = true /\ fs <> []
           /\ h2 = segs ++ [EvSetTimeout 5000] /\ Segments c fs segs)
        \/ ((truthy cid = false \/ fs = []) /\ h2 = []
            /\ results s = clearCollectionStatus (map resultOf fs))).
Proof.
  intros Hsync.
  destruct (uploadLoop_run w baseUrl apiKey blobs noUploads [])
    as (fs & es & h1 & Hup0 & Hrun).
  assert (Hup : uploadLoop w baseUrl apiKey blobs (noUploads, []) =
                  (mkUploads (map resultOf fs) es fs, h1)).
  { etrans; [exact Hup0|]. cbn. by rewrite app_nil_r. }
  clear Hup0. unfold syncBlobs in Hsync. rewrite Hup in Hsync.
  destruct (collectionPhase_frame w baseUrl apiKey cid
              (mkUploads (map resultOf fs) es fs) h1)
    as (R' & evs & Hphase & Hsame & _).
  { cbn. apply Forall_fmap, Forall_forall. intros f _. by left. }
  rewrite Hphase in Hsync. injection Hsync as <- <-. cbn [results errors].
  exists fs, h1, evs. split; [exact Hrun|]. split; [exact Hsame|].
  split; [reflexivity|].
  unfold collectionPhase in Hphase. cbn [uploadResults uploadedFiles] in Hphase.
  destruct cid as [c|].
  2:{ right. injection Hphase as <- Hh.
      split; [by left|]. split; [|reflexivity].
      apply (app_inv_tail h1). by rewrite <- Hh. }
  destruct (truthy (Some c)) eqn:Hc.
  2:{ right. injection Hphase as <- Hh.
      split; [by left|]. split; [|reflexivity].
      apply (app_inv_tail h1). by rewrite <- Hh. }
  destruct fs as [|f fs].
  { right. injection Hphase as <- Hh.
    split; [by right|]. split; [|reflexivity].
    apply (app_inv_tail h1). by rewrite <- Hh. }
  left. cbn [andb length] in Hphase.
  destruct (collectLoop_segments w baseUrl apiKey c (f :: fs)
              (map resultOf (f :: fs)) (snd (sleep 5000 h1)))
    as (R0 & segs & Hfold & Hsegs).
  pose proof (eq_trans (eq_sym Hphase) Hfold) as Heq.
  injection Heq as _ Hh. cbn [sleep snd] in Hh.
  exists c, segs. repeat (split; [done|]). split; [|exact Hsegs].
  apply (app_inv_tail h1). rewrite Hh, <- app_assoc. reflexivity.
Qed.


Lemma Segments_events cid fs evs :
  Segments cid fs evs -> Forall collectEvent evs.
Proof.
  induction 1 as [|f fs st seg evs Hseg _ IH]; [constructor|].
  apply Forall_app. split; [exact IH|].
  eapply Forall_impl; [exact (Segment_events _ _ _ _ Hseg)|].
  intros ev [->|Hev]; [exact I|]. by destruct ev.
Qed.

(** The calls of the second phase of a run, as [run_shape] gives them. *)
Lemma run_shape_second_phase w baseUrl apiKey cid blobs s h :
  syncBlobs w baseUrl apiKey cid blobs = (s, h) ->
  exists fs h1 h2,
    UploadRun blobs fs (errors s) h1
    /\ Forall2 sameUpload (map resultOf fs) (results s)
    /\ h = h2 ++ h1
    /\ Forall collectEvent h2.
Proof.
  intros Hsync.
  destruct (run_shape _ _ _ _ _ _ _ Hsync)
    as (fs & h1 & h2 & Hrun & Hsame & Hh & Hphase).
  exists fs, h1, h2. repeat (split; [assumption|]).
  destruct Hphase as [(c & segs & _ & _ & _ & -> & Hsegs)|(_ & -> & _)];
    [|constructor].
  apply Forall_app. split; [by eapply Segments_events | by repeat constructor].
Qed.

Lemma omap_rev_app {A B} (f : A -> option B) (l1 l2 : list A) :
  omap f (rev (l1 ++ l2)) = omap f (rev l2) ++ omap f (rev l1).
Proof. by rewrite rev_app_distr, omap_app. Qed.

Lemma omap_collect_none {B} (f : Event -> option B) (evs : list Event) :
  (forall ev, collectEvent ev -> f ev = None) ->
  Forall collectEvent evs -> omap f (rev evs) = [].
Proof.
  intros Hf. induction 1 as [|ev evs Hev _ IH]; [reflexivity|].
  cbn [rev]. rewrite omap_app, IH. cbn. by rewrite (Hf ev Hev).
Qed.

Lemma UploadRun_fetches blobs fs es evs :
  UploadRun blobs fs es evs ->
  omap fetchedUrl (rev evs) = map BlobFile.url blobs.
Proof.
  induction 1 as [|blob blobs i calls fs es evs Hcalls _ IH
                  |blob blobs e calls fs es evs Hcalls _ _ IH];
    [reflexivity|..]; rewrite omap_rev_app, IH; inversion Hcalls; reflexivity.
Qed.

Lemma UploadRun_ids blobs fs es evs :
  UploadRun blobs fs es evs ->
  omap obtainedId (rev evs) = map UploadedFile.id fs.
Proof.
  induction 1 as [|blob blobs i calls fs es evs Hcalls _ IH
                  |blob blobs e calls fs es evs Hcalls _ _ IH];
    [reflexivity|..]; rewrite omap_rev_app, IH.
  - inversion Hcalls as [|response content answer Hok Hbody Hid Heq].
    cbn. by rewrite Hid.
  - inversion Hcalls as [r Hr|response content answer Hok Hbody Hid Heq];
      [reflexivity|]. cbn. by rewrite Hid.
Qed.

(** X1 (fetches): in a run that ends with a report, every listed blob is
    fetched exactly once and the fetches are made in listing order: the
    urls of the fetch calls, oldest first, are the urls of the listing. *)
Theorem blobs_fetched_once_in_order w env authHeader code s h blobs :
  POST w env authHeader = (mkResponse code (SummaryBody s), h) ->
  list_blobs w (the (BLOB_READ_WRITE_TOKEN env)) = Fulfilled blobs ->
  omap fetchedUrl (rev h) = map BlobFile.url blobs.
Proof.
  intros Hpost Hlist.
  apply POST_report_inv in Hpost as (_ & _ & _ & blobs' & Hlist' & Hsync).
  rewrite Hlist in Hlist'. injection Hlist' as <-.
  destruct (run_shape_second_phase _ _ _ _ _ _ _ Hsync)
    as (fs & h1 & h2 & Hrun & _ & -> & Hh2).
  rewrite omap_rev_app, (UploadRun_fetches _ _ _ _ Hrun).
  rewrite (omap_collect_none fetchedUrl h2); [by rewrite app_nil_r| |exact Hh2].
  by intros [].
Qed.

Lemma blobs_fetched_once_in_order_witness :
  omap fetchedUrl (rev Sample.history) = map BlobFile.url Sample.blobs.
Proof.
  apply (blobs_fetched_once_in_order Sample.world Sample.env Sample.authHeader
           200 Sample.report Sample.history Sample.blobs).
  - vm_compute. reflexivity.
  - reflexivity.
Defined.

Lemma UploadRun_posts blobs fs es evs name mime content answer :
  UploadRun blobs fs es evs ->
  In (EvPostFile name mime content answer) evs ->
  exists blob response,
    In blob blobs
    /\ name = BlobFile.pathname blob
    /\ mime = contentType (classifyPath name)
    /\ In (EvFetch (BlobFile.url blob) (Fulfilled response)) evs
    /\ ok response = true
    /\ bodyContent response (transfer (classifyPath name)) = Fulfilled content.
Proof.
  assert (Hone : forall blob o calls,
    BlobCalls blob o calls ->
    In (EvPostFile name mime content answer) calls ->
    exists response,
      name = BlobFile.pathname blob
      /\ mime = contentType (classifyPath name)
      /\ In (EvFetch (BlobFile.url blob) (Fulfilled response)) calls
      /\ ok response = true
      /\ bodyContent response (transfer (classifyPath name)) = Fulfilled content).
  { intros blob o calls Hcalls Hin.
    destruct Hcalls as [r Hr|response content' answer' Hok Hbody].
    - destruct Hin as [[=]|[]].
    - destruct Hin as [[= <- <- <- <-]|[[=]|[]]].
      exists response. repeat (split; [done|]). split; [by right; left|].
      by split. }
  induction 1 as [|blob blobs i calls fs es evs Hcalls _ IH
                  |blob blobs e calls fs es evs Hcalls _ _ IH]; intros Hin.
  - destruct Hin.
  - apply in_app_iff in Hin as [Hin|Hin].
    + destruct (IH Hin) as (b & response & Hb & Hn & Hm & Hf & Hrest).
      exists b, response. split; [by right|]. repeat (split; [done|]).
      split; [|exact Hrest]. apply in_app_iff. by left.
    + destruct (Hone _ _ _ Hcalls Hin) as (response & Hn & Hm & Hf & Hrest).
      exists blob, response. split; [by left|]. repeat (split; [done|]).
      split; [|exact Hrest]. apply in_app_iff. by right.
  - apply in_app_iff in Hin as [Hin|Hin].
    + destruct (IH Hin) as (b & response & Hb & Hn & Hm & Hf & Hrest).
      exists b, response. split; [by right|]. repeat (split; [done|]).
      split; [|exact Hrest]. apply in_app_iff. by left.
    + destruct (Hone _ _ _ Hcalls Hin) as (response & Hn & Hm & Hf & Hrest).
      exists blob, response. split; [by left|]. repeat (split; [done|]).
      split; [|exact Hrest]. apply in_app_iff. by right.
Qed.

(** X2 (uploads): every upload call of a run is made for a listed blob
    whose fetch answered with a success status: the file name is the path
    of the blob, the MIME type is the one of its classification, and the
    content is the body of that fetch, read as text or as an array buffer
    as the classification says. *)
Theorem uploads_follow_classification
    w env authHeader code s h blobs name mime content answer :
  POST w env authHeader = (mkResponse code (SummaryBody s), h) ->
  list_blobs w (the (BLOB_READ_WRITE_TOKEN env)) = Fulfilled blobs ->
  In (EvPostFile name mime content answer) h ->
  exists blob response,
    In blob blobs
    /\ name = BlobFile.pathname blob
    /\ mime = contentType (classifyPath name)
    /\ In (EvFetch (BlobFile.url blob) (Fulfilled response)) h
    /\ ok response = true
    /\ bodyContent response (transfer (classifyPath name)) = Fulfilled content.
Proof.
  intros Hpost Hlist Hin.
  apply POST_report_inv in Hpost as (_ & _ & _ & blobs' & Hlist' & Hsync).
  rewrite Hlist in Hlist'. injection Hlist' as <-.
  destruct (run_shape_second_phase _ _ _ _ _ _ _ Hsync)
    as (fs & h1 & h2 & Hrun & _ & -> & Hh2).
  apply in_app_iff in Hin as [Hin|Hin].
  { rewrite Forall_forall in Hh2. apply list_elem_of_In, Hh2 in Hin.
    destruct Hin. }
  destruct (UploadRun_posts _ _ _ _ _ _ _ _ Hrun Hin)
    as (blob & response & Hb & Hn & Hm & Hf & Hrest).
  exists blob, response. repeat (split; [done|]).
  split; [|exact Hrest]. apply in_app_iff. by right.
Qed.

Lemma uploads_follow_classification_witness :
  exists blob response,
    In blob Sample.blobs
    /\ "a.md" = BlobFile.pathname blob
    /\ "text/markdown" = contentType (classifyPath "a.md")
    /\ In (EvFetch (BlobFile.url blob) (Fulfilled response)) Sample.history
    /\ ok response = true
    /\ bodyContent response (transfer (classifyPath "a.md")) =
         Fulfilled (TextContent "hello").
Proof.
  apply (uploads_follow_classification Sample.world Sample.env Sample.authHeader
           200 Sample.report Sample.history Sample.blobs "a.md" "text/markdown"
           (TextContent "hello") (Fulfilled (Some "id-a.md"))).
  - vm_compute. reflexivity.
  - reflexivity.
  - vm_compute. tauto.
Defined.

Lemma sameUpload_result_ids fs R :
  Forall2 sameUpload (map resultOf fs) R ->
  map SyncResult.openWebUIId R = map UploadedFile.id fs.
Proof.
  intros Hsame. rewrite (sameUpload_ids _ _ Hsame), <- list_fmap_compose.
  reflexivity.
Qed.

Lemma UploadRun_ids_truthy blobs fs es evs :
  UploadRun blobs fs es evs ->
  Forall (fun f => UploadedFile.id f <> EmptyString) fs.
Proof.
  induction 1 as [|blob blobs i calls fs es evs Hcalls _ IH
                  |blob blobs e calls fs es evs Hcalls _ _ IH];
    [constructor| |exact IH].
  constructor; [|exact IH]. cbn.
  inversion Hcalls as [|response content answer Hok Hbody Hid Heq].
  destruct answer as [|[j|]]; try discriminate. cbn in Hid.
  destruct (String.eqb_spec j EmptyString) as [->|Hne]; [discriminate|].
  cbn in Hid. congruence.
Qed.

(** X3 (ids): the [openWebUIId]s of the entries of a report are exactly
    the ids the upload calls of the run obtained, in the order of the
    calls, and none of them is the empty string. *)
Theorem result_ids_are_upload_answers w env authHeader code s h :
  POST w env authHeader = (mkResponse code (SummaryBody s), h) ->
  map SyncResult.openWebUIId (results s) = omap obtainedId (rev h)
  /\ Forall (fun r => SyncResult.openWebUIId r <> EmptyString) (results s).
Proof.
  intros Hpost.
  apply POST_report_inv in Hpost as (_ & _ & _ & blobs & _ & Hsync).
  destruct (run_shape_second_phase _ _ _ _ _ _ _ Hsync)
    as (fs & h1 & h2 & Hrun & Hsame & -> & Hh2).
  split.
  - rewrite omap_rev_app, (UploadRun_ids _ _ _ _ Hrun).
    rewrite (omap_collect_none obtainedId h2); [|by intros []|exact Hh2].
    rewrite app_nil_r. by apply sameUpload_result_ids.
  - pose proof (UploadRun_ids_truthy _ _ _ _ Hrun) as Hids.
    pose proof (sameUpload_result_ids _ _ Hsame) as Hmap.
    apply Forall_forall. intros r Hr.
    assert (Hin : SyncResult.openWebUIId r ∈ map UploadedFile.id fs).
    { rewrite <- Hmap. by apply list_elem_of_fmap_2. }
    apply list_elem_of_fmap in Hin as (f & -> & Hf).
    rewrite Forall_forall in Hids. by apply Hids.
Qed.

Lemma result_ids_are_upload_answers_witness :
  map SyncResult.openWebUIId (results Sample.report) =
    omap obtainedId (rev Sample.history)
  /\ Forall (fun r => SyncResult.openWebUIId r <> EmptyString)
       (results Sample.report).
Proof.
  apply (result_ids_are_upload_answers Sample.world Sample.env
           Sample.authHeader 200 Sample.report Sample.history).
  vm_compute. reflexivity.
Defined.


(** ** Pauses, status checks and associations *)

Lemma UploadRun_events blobs fs es evs :
  UploadRun blobs fs es evs -> Forall uploadEvent evs.
Proof.
  induction 1 as [|blob blobs i calls fs es evs Hcalls _ IH
                  |blob blobs e calls fs es evs Hcalls _ _ IH];
    [constructor|..]; (apply Forall_app; split; [exact IH|]);
    inversion Hcalls; by repeat constructor.
Qed.

Lemma results_nonempty fs (R : list SyncResult.t) :
  Forall2 sameUpload (map resultOf fs) R -> (R = [] <-> fs = []).
Proof.
  intros Hsame. apply Forall2_length in Hsame. rewrite length_map in Hsame.
  destruct fs, R; cbn in Hsame; try lia; split; congruence.
Qed.

(** X4 (settling pause): when a collection id is configured and at least
    one file was uploaded, the history of the run splits in two: first all
    fetches and uploads, then one pause of 5000 ms, then only pauses of
    3000 ms, status checks and associations.  So the run pauses 5000 ms
    exactly once, after the last upload and before the first status
    check. *)
Theorem one_pause_between_the_phases w env authHeader code s h :
  POST w env authHeader = (mkResponse code (SummaryBody s), h) ->
  truthy (KNOWLEDGE_COLLECTION_ID env) = true ->
  results s <> [] ->
  exists h2 h1,
    h = h2 ++ EvSetTimeout 5000 :: h1
    /\ Forall (fun ev =>
                 match ev with
                 | EvFetch _ _ | EvPostFile _ _ _ _ => True
                 | _ => False
                 end) h1
    /\ Forall (fun ev =>
                 match ev with
                 | EvFetch _ _ | EvPostFile _ _ _ _ => False
                 | EvSetTimeout ms => ms = 3000
                 | EvGetFile _ _ | EvPostKnowledge _ _ _ => True
                 end) h2.
Proof.
  intros Hpost Hcid Hres.
  apply POST_report_inv in Hpost as (_ & _ & _ & blobs & _ & Hsync).
  destruct (run_shape _ _ _ _ _ _ _ Hsync)
    as (fs & h1 & h2 & Hrun & Hsame & -> & Hphase).
  destruct Hphase as [(c & segs & _ & _ & _ & -> & Hsegs)|([Hno|Hfs] & _ & _)].
  - exists segs, h1. split; [by rewrite <- app_assoc|]. split.
    + eapply Forall_impl; [exact (UploadRun_events _ _ _ _ Hrun)|]. by intros [].
    + clear -Hsegs. induction Hsegs as [|f fs st seg evs Hseg _ IH]; [constructor|].
      apply Forall_app. split; [exact IH|].
      eapply Forall_impl; [exact (Segment_events _ _ _ _ Hseg)|].
      intros ev [->|Hev]; [reflexivity|]. by destruct ev.
  - congruence.
  - exfalso. apply Hres. by apply (results_nonempty fs).
Qed.

Lemma one_pause_between_the_phases_witness :
  exists h2 h1,
    Sample.history = h2 ++ EvSetTimeout 5000 :: h1
    /\ Forall (fun ev =>
                 match ev with
                 | EvFetch _ _ | EvPostFile _ _ _ _ => True
                 | _ => False
                 end) h1
    /\ Forall (fun ev =>
                 match ev with
                 | EvFetch _ _ | EvPostFile _ _ _ _ => False
                 | EvSetTimeout ms => ms = 3000
                 | EvGetFile _ _ | EvPostKnowledge _ _ _ => True
                 end) h2.
Proof.
  apply (one_pause_between_the_phases Sample.world Sample.env Sample.authHeader
           200 Sample.report Sample.history).
  - vm_compute. reflexivity.
  - reflexivity.
  - discriminate.
Defined.

(** X5 (nothing uploaded): when no upload went through, then, whatever the
    collection id, the run makes no pause, no status check and no
    association call, and the report counts no success and nothing added;
    on an empty listing it makes no call at all and reports no error. *)
Theorem nothing_uploaded_skips_second_phase w env authHeader code s h blobs :
  POST w env authHeader = (mkResponse code (SummaryBody s), h) ->
  list_blobs w (the (BLOB_READ_WRITE_TOKEN env)) = Fulfilled blobs ->
  results s = [] ->
  Forall (fun ev =>
            match ev with
            | EvFetch _ _ | EvPostFile _ _ _ _ => True
            | _ => False
            end) h
  /\ successful s = 0
  /\ addedToCollection s = 0
  /\ failed s = totalFiles s
  /\ (blobs = [] -> h = [] /\ errors s = [] /\ totalFiles s = 0).
Proof.
  intros Hpost Hlist Hres.
  apply POST_report_inv in Hpost as (_ & _ & _ & blobs' & Hlist' & Hsync).
  rewrite Hlist in Hlist'. injection Hlist' as <-.
  destruct (run_shape _ _ _ _ _ _ _ Hsync)
    as (fs & h1 & h2 & Hrun & Hsame & Hh & Hphase).
  assert (Hfs : fs = []) by by apply (results_nonempty fs (results s)).
  assert (Hh2 : h2 = []).
  { destruct Hphase as [(c & segs & _ & _ & Hne & _)|(_ & -> & _)]; done. }
  subst fs h2. cbn [app] in Hh. subst h1.
  destruct (syncBlobs_spec w (the (OPEN_WEB_UI_BASE_URL env))
              (the (OPEN_WEB_UI_API_KEY env)) (KNOWLEDGE_COLLECTION_ID env) blobs)
    as (fs' & es & evs1 & R' & evs2 & _ & Hrep & _ & _ & _ & _ & Hs).
  pose proof (eq_trans (eq_sym Hsync) Hs) as Heq. injection Heq as Hs' _.
  rewrite Hs' in Hres |- *. cbn [results] in Hres. subst R'.
  cbn [successful addedToCollection failed totalFiles errors results] in *.
  split.
  { eapply Forall_impl; [exact (UploadRun_events _ _ _ _ Hrun)|]. by intros []. }
  split; [reflexivity|]. split; [reflexivity|].
  rewrite Hs' in Hrun. cbn [errors] in Hrun.
  assert (Hlen : length blobs = length es).
  { clear -Hrun. remember [] as fs eqn:Hfs.
    induction Hrun as [|blob blobs i calls fs es evs Hcalls _ IH
                       |blob blobs e calls fs es evs Hcalls _ _ IH];
      [reflexivity|discriminate|]. cbn. f_equal. by apply IH. }
  split; [by rewrite Hlen|].
  intros ->. inversion Hrun; subst. by repeat split.
Qed.

Lemma nothing_uploaded_skips_second_phase_witness :
  Forall (fun ev =>
            match ev with
            | EvFetch _ _ | EvPostFile _ _ _ _ => True
            | _ => False
            end)
    (snd (POST Sample.offline Sample.env Sample.authHeader))
  /\ successful Sample.reportOffline = 0
  /\ addedToCollection Sample.reportOffline = 0
  /\ failed Sample.reportOffline = totalFiles Sample.reportOffline
  /\ (Sample.blobs = [] ->
      snd (POST Sample.offline Sample.env Sample.authHeader) = []
      /\ errors Sample.reportOffline = []
      /\ totalFiles Sample.reportOffline = 0).
Proof.
  apply (nothing_uploaded_skips_second_phase Sample.offline Sample.env
           Sample.authHeader 200).
  - vm_compute. reflexivity.
  - reflexivity.
  - reflexivity.
Defined.


Lemma pausedTime_app h1 h2 : pausedTime (h1 ++ h2) = pausedTime h1 + pausedTime h2.
Proof.
  unfold pausedTime. induction h1 as [|ev h1 IH]; cbn [app fold_right]; lia.
Qed.

Lemma countCalls_app kind h1 h2 :
  countCalls kind (h1 ++ h2) = (countCalls kind h1 + countCalls kind h2)%nat.
Proof. unfold countCalls. by rewrite List.filter_app, length_app. Qed.

(** One run of the polling loop: between one and [n] status checks, a
    pause of 3000 ms after every check but the last, no association. *)
Lemma PollTrace_budget x n b evs :
  PollTrace x n b evs -> n <> 0%nat ->
  (1 <= countCalls isStatusCall evs <= n)%nat
  /\ pausedTime evs = 3000 * (Z.of_nat (countCalls isStatusCall evs) - 1)
  /\ countCalls isAssociation evs = 0%nat.
Proof.
  induction 1 as [|n e|n d Hd|d Hd|n d b evs Hd _ IH]; intros Hn;
    [done|cbn; repeat split; lia..|].
  destruct IH as ((Hlo & Hhi) & Hpause & Hassoc); [done|].
  rewrite !countCalls_app, pausedTime_app, Hpause, Hassoc. cbn. lia.
Qed.

Lemma Segment_budget cid x st seg :
  Segment cid x st seg ->
  (1 <= countCalls isStatusCall seg <= 6)%nat
  /\ pausedTime seg = 3000 * (Z.of_nat (countCalls isStatusCall seg) - 1)
  /\ (countCalls isAssociation seg <= 1)%nat.
Proof.
  destruct 1 as [evs Htr|evs u Htr|evs e Htr];
    destruct (PollTrace_budget _ _ _ _ Htr) as ((Hlo & Hhi) & Hpause & Hassoc);
    try done; unfold maxAttempts in Hhi.
  - rewrite Hassoc. repeat split; [lia..|exact Hpause|lia].
  - change (EvPostKnowledge cid x (Fulfilled u) :: evs)
      with ([EvPostKnowledge cid x (Fulfilled u)] ++ evs).
    rewrite !countCalls_app, pausedTime_app, Hpause, Hassoc. cbn. lia.
  - change (EvPostKnowledge cid x (Rejected e) :: evs)
      with ([EvPostKnowledge cid x (Rejected e)] ++ evs).
    rewrite !countCalls_app, pausedTime_app, Hpause, Hassoc. cbn. lia.
Qed.

Lemma Segments_budget cid fs evs :
  Segments cid fs evs ->
  (length fs <= countCalls isStatusCall evs <= 6 * length fs)%nat
  /\ pausedTime evs =
       3000 * (Z.of_nat (countCalls isStatusCall evs) - Z.of_nat (length fs))
  /\ (countCalls isAssociation evs <= length fs)%nat.
Proof.
  induction 1 as [|f fs st seg evs Hseg _ IH]; [by cbn|].
  destruct IH as ((Hlo & Hhi) & Hpause & Hassoc).
  destruct (Segment_budget _ _ _ _ Hseg) as ((Hlo' & Hhi') & Hpause' & Hassoc').
  rewrite !countCalls_app, pausedTime_app, Hpause, Hpause'. cbn [length]. lia.
Qed.

Lemma upload_events_budget evs :
  Forall uploadEvent evs ->
  countCalls isStatusCall evs = 0%nat
  /\ countCalls isAssociation evs = 0%nat
  /\ pausedTime evs = 0.
Proof.
  induction 1 as [|ev evs Hev _ (IH1 & IH2 & IH3)]; [done|].
  destruct ev; try destruct Hev; by cbn.
Qed.

(** X6 (budget): a run checks the status of each uploaded file at least
    once and at most 6 times when it has a second phase, makes at most one
    association call per uploaded file, and pauses 3000 ms after every
    status check of a file but the last one: with [n] entries in the report
    and [k] status checks, the second phase pauses [5000 + 3000 * (k - n)]
    ms, which is at most [5000 + 15000 * n]; without a second phase the run
    does not pause. *)
Theorem call_and_pause_budget w env authHeader code s h :
  POST w env authHeader = (mkResponse code (SummaryBody s), h) ->
  let n := length (results s) in
  let k := countCalls isStatusCall h in
  (k <= 6 * n)%nat
  /\ (countCalls isAssociation h <= n)%nat
  /\ pausedTime h <= 5000 + 15000 * Z.of_nat n
  /\ (truthy (KNOWLEDGE_COLLECTION_ID env) = true -> results s <> [] ->
      (n <= k)%nat
      /\ pausedTime h = 5000 + 3000 * (Z.of_nat k - Z.of_nat n))
  /\ (truthy (KNOWLEDGE_COLLECTION_ID env) = false \/ results s = [] ->
      k = 0%nat /\ pausedTime h = 0).
Proof.
  intros Hpost n k. subst n k.
  apply POST_report_inv in Hpost as (_ & _ & _ & blobs & _ & Hsync).
  destruct (run_shape _ _ _ _ _ _ _ Hsync)
    as (fs & h1 & h2 & Hrun & Hsame & -> & Hphase).
  pose proof (Forall2_length _ _ _ Hsame) as Hlen. rewrite length_map in Hlen.
  destruct (upload_events_budget _ (UploadRun_events _ _ _ _ Hrun))
    as (Hs1 & Ha1 & Hp1).
  rewrite !countCalls_app, pausedTime_app, Hs1, Ha1, Hp1, <- Hlen.
  destruct Hphase as [(c & segs & _ & Hc & Hne & -> & Hsegs)|(Hno & -> & _)].
  - destruct (Segments_budget _ _ _ Hsegs) as ((Hlo & Hhi) & Hpause & Hassoc).
    rewrite !countCalls_app, pausedTime_app, Hpause. cbn.
    split_and!; [lia..| |].
    + intros _ _. split; lia.
    + intros [Hor|Hor]; [congruence|].
      exfalso. apply Hne. by apply (results_nonempty fs (results s)).
  - cbn. split_and!; [lia..| |].
    + intros Hc Hres. exfalso. destruct Hno as [Hno|Hno]; [congruence|].
      apply Hres. by apply (results_nonempty fs (results s)).
    + intros _. split; lia.
Qed.

Lemma call_and_pause_budget_witness :
  let n := length (results Sample.report) in
  let k := countCalls isStatusCall Sample.history in
  (k <= 6 * n)%nat
  /\ (countCalls isAssociation Sample.history <= n)%nat
  /\ pausedTime Sample.history <= 5000 + 15000 * Z.of_nat n
  /\ (truthy (KNOWLEDGE_COLLECTION_ID Sample.env) = true ->
      results Sample.report <> [] ->
      (n <= k)%nat
      /\ pausedTime Sample.history = 5000 + 3000 * (Z.of_nat k - Z.of_nat n))
  /\ (truthy (KNOWLEDGE_COLLECTION_ID Sample.env) = false
      \/ results Sample.report = [] ->
      k = 0%nat /\ pausedTime Sample.history = 0).
Proof.
  apply (call_and_pause_budget Sample.world Sample.env Sample.authHeader 200
           Sample.report Sample.history).
  vm_compute. reflexivity.
Defined.

Lemma PollTrace_ready_head x n evs :
  PollTrace x n true evs ->
  exists d rest, evs = EvGetFile x (Fulfilled d) :: rest /\ readyData d = true.
Proof.
  remember true as b eqn:Hb.
  induction 1 as [|n e|n d Hd|d Hd|n d b evs Hd _ IH]; try discriminate.
  - by exists d, [].
  - destruct (IH Hb) as (d' & rest & -> & Hd'). by eexists d', _.
Qed.

Lemma Segments_association cid fs evs i c x a :
  Segments cid fs evs ->
  evs !! i = Some (EvPostKnowledge c x a) ->
  c = cid
  /\ exists d, evs !! S i = Some (EvGetFile x (Fulfilled d)) /\ readyData d = true.
Proof.
  intros Hsegs. revert i.
  induction Hsegs as [|f fs st seg evs Hseg _ IH]; intros i Hi.
  - destruct i; discriminate Hi.
  - apply lookup_app_Some in Hi as [Hi|[Hge Hi]].
    + destruct (IH i Hi) as (-> & d & Hnext & Hd). split; [reflexivity|].
      exists d. split; [|exact Hd]. by apply lookup_app_l_Some.
    + assert (Hpoll : forall b pevs j,
                PollTrace (UploadedFile.id f) maxAttempts b pevs ->
                pevs !! j <> Some (EvPostKnowledge c x a)).
      { intros b pevs j Htr Hj.
        eapply PollTrace_no_association; [exact Htr|].
        apply list_elem_of_In. by eapply list_elem_of_lookup_2. }
      assert (Hhead : exists pevs a',
                seg = EvPostKnowledge cid (UploadedFile.id f) a' :: pevs
                /\ PollTrace (UploadedFile.id f) maxAttempts true pevs
                /\ (i - length evs)%nat = 0%nat
                /\ c = cid /\ x = UploadedFile.id f).
      { destruct Hseg as [pevs Htr|pevs u Htr|pevs e Htr].
        - by destruct (Hpoll _ _ _ Htr Hi).
        - destruct (i - length evs)%nat as [|j] eqn:Hj; cbn in Hi.
          + injection Hi as <- <- <-. by eexists pevs, _.
          + by destruct (Hpoll _ _ _ Htr Hi).
        - destruct (i - length evs)%nat as [|j] eqn:Hj; cbn in Hi.
          + injection Hi as <- <- <-. by eexists pevs, _.
          + by destruct (Hpoll _ _ _ Htr Hi). }
      destruct Hhead as (pevs & a' & -> & Htr & Hi0 & -> & ->).
      split; [reflexivity|].
      destruct (PollTrace_ready_head _ _ _ Htr) as (d & rest & -> & Hd).
      exists d. split; [|exact Hd].
      rewrite lookup_app_r by lia.
      replace (S i - length evs)%nat with 1%nat by lia. reflexivity.
Qed.

(** X7 (association): an association call is made only for the configured
    collection and only right after a status check of the same file that
    was answered with [status] ["completed"] and a content that is not
    blank: the call the run made just before it is that status check. *)
Theorem association_follows_ready_check w env authHeader code s h i c x a :
  POST w env authHeader = (mkResponse code (SummaryBody s), h) ->
  h !! i = Some (EvPostKnowledge c x a) ->
  KNOWLEDGE_COLLECTION_ID env = Some c
  /\ exists d,
       h !! S i = Some (EvGetFile x (Fulfilled d))
       /\ isProcessed d && hasContent d = true.
Proof.
  intros Hpost Hi.
  apply POST_report_inv in Hpost as (_ & _ & _ & blobs & _ & Hsync).
  destruct (run_shape _ _ _ _ _ _ _ Hsync)
    as (fs & h1 & h2 & Hrun & _ & -> & Hphase).
  assert (Hnot1 : forall j, h1 !! j <> Some (EvPostKnowledge c x a)).
  { intros j Hj. pose proof (UploadRun_events _ _ _ _ Hrun) as Hev.
    rewrite Forall_forall in Hev.
    by apply (Hev _ (list_elem_of_lookup_2 _ _ _ Hj)). }
  destruct Hphase as [(c' & segs & Hc & _ & _ & -> & Hsegs)|(_ & -> & _)].
  2:{ by destruct (Hnot1 i). }
  rewrite <- app_assoc in Hi |- *.
  apply lookup_app_Some in Hi as [Hi|[Hge Hi]].
  - destruct (Segments_association _ _ _ _ _ _ _ Hsegs Hi) as (-> & d & Hnext & Hd).
    split; [exact Hc|]. exists d. split; [|exact Hd]. by apply lookup_app_l_Some.
  - exfalso. destruct (i - length segs)%nat as [|j]; [discriminate Hi|].
    cbn in Hi. by destruct (Hnot1 j).
Qed.

Lemma association_follows_ready_check_witness :
  KNOWLEDGE_COLLECTION_ID Sample.env = Some "kb-1"
  /\ exists d,
       Sample.history !! 1%nat = Some (EvGetFile "id-e.png" (Fulfilled d))
       /\ isProcessed d && hasContent d = true.
Proof.
  apply (association_follows_ready_check Sample.world Sample.env
           Sample.authHeader 200 Sample.report Sample.history 0 "kb-1"
           "id-e.png"
           (Rejected (ErrorObj "Request failed with status code 400"))).
  - vm_compute. reflexivity.
  - vm_compute. reflexivity.
Defined.


(** ** What the [collectionStatus] of an entry says about the calls *)

Lemma PollTrace_associationCalls x y n b evs :
  PollTrace x n b evs -> associationCalls y evs = [].
Proof.
  intros Htr. apply PollTrace_events in Htr.
  induction Htr as [|ev evs [->|[a ->]] _ IH]; [reflexivity|exact IH..].
Qed.

Lemma Segment_trichotomy cid x st seg :
  Segment cid x st seg ->
  (st = "added"
   /\ exists u, associationCalls x seg = [EvPostKnowledge cid x (Fulfilled u)])
  \/ (st = "collection-failed"
      /\ exists e, associationCalls x seg = [EvPostKnowledge cid x (Rejected e)])
  \/ (st = "not-processed" /\ associationCalls x seg = []).
Proof.
  destruct 1 as [evs Htr|evs u Htr|evs e Htr].
  - right; right. split; [reflexivity|]. by eapply PollTrace_associationCalls.
  - left. split; [reflexivity|]. exists u.
    unfold associationCalls. cbn [List.filter associationFor].
    rewrite String.eqb_refl. f_equal. by eapply PollTrace_associationCalls.
  - right; left. split; [reflexivity|]. exists e.
    unfold associationCalls. cbn [List.filter associationFor].
    rewrite String.eqb_refl. f_equal. by eapply PollTrace_associationCalls.
Qed.

(** X8 (status and calls): with a collection id configured and pairwise
    different ids in the report, the [collectionStatus] of every entry is
    ["added"], ["collection-failed"] or ["not-processed"], never [null], and
    it tells which association calls the run made for the file of the
    entry: exactly one, fulfilled; exactly one, rejected; or none. *)
Theorem collection_status_tells_the_calls w env authHeader code s h i r :
  POST w env authHeader = (mkResponse code (SummaryBody s), h) ->
  truthy (KNOWLEDGE_COLLECTION_ID env) = true ->
  NoDup (map SyncResult.openWebUIId (results s)) ->
  results s !! i = Some r ->
  exists c,
    KNOWLEDGE_COLLECTION_ID env = Some c
    /\ ((SyncResult.collectionStatus r = Some "added"
         /\ exists u,
              associationCalls (SyncResult.openWebUIId r) h =
                [EvPostKnowledge c (SyncResult.openWebUIId r) (Fulfilled u)])
        \/ (SyncResult.collectionStatus r = Some "collection-failed"
            /\ exists e,
                 associationCalls (SyncResult.openWebUIId r) h =
                   [EvPostKnowledge c (SyncResult.openWebUIId r) (Rejected e)])
        \/ (SyncResult.collectionStatus r = Some "not-processed"
            /\ associationCalls (SyncResult.openWebUIId r) h = [])).
Proof.
  intros Hpost Hcid Hnd Hi.
  apply POST_report_inv in Hpost as (_ & _ & _ & blobs & _ & Hsync).
  destruct (report_entries _ _ _ _ _ _ _ Hsync Hcid Hnd)
    as (c & up & h1 & h2 & Hc & _ & _ & _ & Hentries & _).
  destruct (Hentries i r Hi) as (r0 & st & seg & _ & _ & Hr & Hseg & Hcalls & _).
  exists c. split; [exact Hc|].
  rewrite callsAbout_association, Hcalls, <- callsAbout_association.
  assert (Hst : SyncResult.collectionStatus r = Some st) by (by rewrite Hr).
  rewrite Hst.
  destruct (Segment_trichotomy _ _ _ _ Hseg) as [[-> H]|[[-> H]|[-> H]]]; auto.
Qed.

Lemma collection_status_tells_the_calls_witness :
  exists c,
    KNOWLEDGE_COLLECTION_ID Sample.env = Some c
    /\ ((SyncResult.collectionStatus
           (Sample.entry "a.md" "id-a.md" (Some "added") 120) = Some "added"
         /\ exists u,
              associationCalls "id-a.md" Sample.history =
                [EvPostKnowledge c "id-a.md" (Fulfilled u)])
        \/ (SyncResult.collectionStatus
              (Sample.entry "a.md" "id-a.md" (Some "added") 120) =
              Some "collection-failed"
            /\ exists e,
                 associationCalls "id-a.md" Sample.history =
                   [EvPostKnowledge c "id-a.md" (Rejected e)])
        \/ (SyncResult.collectionStatus
              (Sample.entry "a.md" "id-a.md" (Some "added") 120) =
              Some "not-processed"
            /\ associationCalls "id-a.md" Sample.history = [])).
Proof.
  apply (collection_status_tells_the_calls Sample.world Sample.env
           Sample.authHeader 200 Sample.report Sample.history 0
           (Sample.entry "a.md" "id-a.md" (Some "added") 120)).
  - vm_compute. reflexivity.
  - reflexivity.
  - vm_compute. repeat constructor; rewrite list_elem_of_In; simpl;
      intuition discriminate.
  - reflexivity.
Defined.

Lemma PollTrace_ready_last x n b evs d :
  PollTrace x n b evs ->
  In (EvGetFile x (Fulfilled d)) evs -> readyData d = true ->
  b = true
  /\ exists earlier,
       callsAbout x evs = EvGetFile x (Fulfilled d) :: earlier
       /\ Forall (fun ev =>
                    exists d', ev = EvGetFile x (Fulfilled d')
                               /\ readyData d' = false) earlier.
Proof.
  induction 1 as [|n e|n d' Hd|d' Hd|n d' b evs Hd _ IH]; intros Hin Hready.
  - destruct Hin.
  - destruct Hin as [[=]|[]].
  - destruct Hin as [[= <-]|[]]. split; [reflexivity|]. exists [].
    unfold callsAbout. cbn [List.filter]. rewrite aboutFile_status.
    by split.
  - destruct Hin as [[= <-]|[]]. congruence.
  - apply in_app_iff in Hin as [Hin|[[=]|[[= <-]|[]]]]; [|congruence].
    destruct (IH Hin Hready) as (-> & earlier & Hcalls & Hearlier).
    split; [reflexivity|].
    exists (earlier ++ [EvGetFile x (Fulfilled d')]). split.
    + rewrite callsAbout_app, Hcalls. unfold callsAbout.
      cbn [List.filter aboutFile]. by rewrite String.eqb_refl.
    + apply Forall_app. split; [exact Hearlier|].
      constructor; [by exists d'|constructor].
Qed.

(** X9 (ready ends the polling): with pairwise different ids in the
    report, a status check of file [x] that reports it ready is the last
    status check of [x]: the only later call about [x] is one association
    call, which comes next, and every earlier status check of [x] was
    answered without reporting it ready. *)
Theorem ready_check_ends_polling w env authHeader code s h x d :
  POST w env authHeader = (mkResponse code (SummaryBody s), h) ->
  NoDup (map SyncResult.openWebUIId (results s)) ->
  In (EvGetFile x (Fulfilled d)) h ->
  isProcessed d && hasContent d = true ->
  exists c a earlier,
    callsAbout x h =
      EvPostKnowledge c x a :: EvGetFile x (Fulfilled d) :: earlier
    /\ KNOWLEDGE_COLLECTION_ID env = Some c
    /\ Forall (fun ev =>
                 exists d',
                   ev = EvGetFile x (Fulfilled d')
                   /\ isProcessed d' && hasContent d' = false) earlier.
Proof.
  intros Hpost Hnd Hin Hready.
  apply POST_report_inv in Hpost as (_ & _ & _ & blobs & _ & Hsync).
  assert (Hcid : truthy (KNOWLEDGE_COLLECTION_ID env) = true)
    by (by eapply syncBlobs_collecting).
  destruct (report_entries _ _ _ _ _ _ _ Hsync Hcid Hnd)
    as (c & up & h1 & h2 & Hc & _ & _ & _ & Hentries & Hfind).
  destruct (Hfind x _ Hin (aboutFile_status x _)) as (i & r & Hi & Hx).
  destruct (Hentries i r Hi) as (r0 & st & seg & _ & _ & _ & Hseg & Hcalls & _).
  rewrite Hx in Hseg, Hcalls.
  pose proof (callsAbout_In x _ _ Hin (aboutFile_status x _)) as Hin'.
  rewrite Hcalls in Hin'. apply List.filter_In in Hin' as [Hin' _].
  assert (Hshape : exists a evs,
            seg = EvPostKnowledge c x a :: evs
            /\ PollTrace x maxAttempts true evs
            /\ In (EvGetFile x (Fulfilled d)) evs).
  { destruct Hseg as [evs Htr|evs u Htr|evs e Htr].
    - by destruct (PollTrace_ready_last _ _ _ _ _ Htr Hin' Hready).
    - destruct Hin' as [[=]|Hin']. by eexists _, evs.
    - destruct Hin' as [[=]|Hin']. by eexists _, evs. }
  destruct Hshape as (a & evs & -> & Htr & Hin'').
  destruct (PollTrace_ready_last _ _ _ _ _ Htr Hin'' Hready)
    as (_ & earlier & Hevs & Hearlier).
  exists c, a, earlier. split; [|by split].
  rewrite Hcalls. unfold callsAbout in *. cbn [List.filter aboutFile].
  by rewrite String.eqb_refl, Hevs.
Qed.

Lemma ready_check_ends_polling_witness :
  exists c a earlier,
    callsAbout "id-a.md" Sample.history =
      EvPostKnowledge c "id-a.md" a
        :: EvGetFile "id-a.md" (Fulfilled Sample.extracted) :: earlier
    /\ KNOWLEDGE_COLLECTION_ID Sample.env = Some c
    /\ Forall (fun ev =>
                 exists d',
                   ev = EvGetFile "id-a.md" (Fulfilled d')
                   /\ isProcessed d' && hasContent d' = false) earlier.
Proof.
  apply (ready_check_ends_polling Sample.world Sample.env Sample.authHeader 200
           Sample.report Sample.history "id-a.md" Sample.extracted).
  - vm_compute. reflexivity.
  - vm_compute. repeat constructor; rewrite list_elem_of_In; simpl;
      intuition discriminate.
  - vm_compute. tauto.
  - reflexivity.
Defined.

Lemma Segment_added_count cid x st seg :
  Segment cid x st seg ->
  countCalls isFulfilledAssociation seg =
    if String.eqb st "added" then 1%nat else 0%nat.
Proof.
  assert (Hpoll : forall b evs, PollTrace x maxAttempts b evs ->
                    countCalls isFulfilledAssociation evs = 0%nat).
  { intros b evs Htr. apply PollTrace_events in Htr.
    induction Htr as [|ev evs [->|[a ->]] _ IH]; [reflexivity|exact IH..]. }
  destruct 1 as [evs Htr|evs u Htr|evs e Htr]; unfold countCalls in *;
    cbn [List.filter isFulfilledAssociation length String.eqb];
    by rewrite (Hpoll _ _ Htr).
Qed.

Lemma CollectRun_added cid rs rs' evs :
  CollectRun cid rs rs' evs ->
  length (filter (fun r => isAdded r = true) rs') =
    countCalls isFulfilledAssociation evs.
Proof.
  induction 1 as [|r rs rs' st seg evs Hseg _ IH]; [reflexivity|].
  rewrite countCalls_app, (Segment_added_count _ _ _ _ Hseg), <- IH.
  destruct (String.eqb st "added") eqn:Hst.
  - rewrite filter_cons_True by (unfold isAdded; cbn; exact Hst).
    cbn [length]. lia.
  - rewrite filter_cons_False by (unfold isAdded; cbn; by rewrite Hst).
    lia.
Qed.

(** X10 (added count): with pairwise different ids in the report,
    [addedToCollection] is the number of association calls of the run that
    were fulfilled. *)
Theorem added_counts_fulfilled_associations w env authHeader code s h :
  POST w env authHeader = (mkResponse code (SummaryBody s), h) ->
  NoDup (map SyncResult.openWebUIId (results s)) ->
  addedToCollection s = Z.of_nat (countCalls isFulfilledAssociation h).
Proof.
  intros Hpost Hnd.
  apply POST_report_inv in Hpost as (_ & _ & _ & blobs & _ & Hsync).
  destruct (syncBlobs_spec w (the (OPEN_WEB_UI_BASE_URL env))
              (the (OPEN_WEB_UI_API_KEY env)) (KNOWLEDGE_COLLECTION_ID env) blobs)
    as (fs' & es' & evs1' & R' & evs2' & _ & _ & _ & _ & _ & _ & Hs).
  pose proof (eq_trans (eq_sym Hsync) Hs) as Heq. injection Heq as Hs' _.
  assert (Hadded : addedToCollection s =
            Z.of_nat (length (filter (fun r => isAdded r = true) (results s))))
    by (by rewrite Hs').
  rewrite Hadded. f_equal. clear Hs Hs' Hadded.
  assert (Hupload : forall evs, Forall uploadEvent evs ->
                      countCalls isFulfilledAssociation evs = 0%nat).
  { induction 1 as [|ev evs Hev _ IH]; [reflexivity|].
    destruct ev; try destruct Hev; exact IH. }
  destruct (truthy (KNOWLEDGE_COLLECTION_ID env)) eqn:Hcid.
  - destruct (syncBlobs_collect _ _ _ _ _ _ _ Hsync Hcid Hnd)
      as (c & fs & es & evs1 & evs2 & pause & _ & _ & Hevs1 & Hrun & -> & Hpause).
    rewrite !countCalls_app, (Hupload _ Hevs1), (CollectRun_added _ _ _ _ Hrun).
    assert (Hp : countCalls isFulfilledAssociation pause = 0%nat).
    { clear -Hpause. induction Hpause as [|ev pause -> _ IH]; [reflexivity|exact IH]. }
    rewrite Hp. lia.
  - destruct (run_shape _ _ _ _ _ _ _ Hsync)
      as (fs & h1 & h2 & Hrun & _ & -> & Hphase).
    destruct Hphase as [(c & segs & _ & Hc & _)|(_ & -> & ->)]; [congruence|].
    cbn [app]. rewrite (Hupload _ (UploadRun_events _ _ _ _ Hrun)).
    rewrite none_added; [reflexivity|].
    unfold clearCollectionStatus. rewrite !Forall_fmap.
    apply Forall_forall. by intros f _.
Qed.

Lemma added_counts_fulfilled_associations_witness :
  addedToCollection Sample.report =
    Z.of_nat (countCalls isFulfilledAssociation Sample.history).
Proof.
  apply (added_counts_fulfilled_associations Sample.world Sample.env
           Sample.authHeader 200 Sample.report Sample.history).
  - vm_compute. reflexivity.
  - vm_compute. repeat constructor; rewrite list_elem_of_In; simpl;
      intuition discriminate.
Defined.


(** ** Entries that share an id *)

Lemma setCollectionStatus_shadowed x st (R : list SyncResult.t) i j ri rj :
  R !! i = Some ri -> R !! j = Some rj -> (i < j)%nat ->
  SyncResult.openWebUIId ri = SyncResult.openWebUIId rj ->
  setCollectionStatus (findIndex x R) st R !! j = Some rj.
Proof.
  intros Hi Hj Hlt Hid. unfold findIndex, setCollectionStatus.
  destruct (list_find _ R) as [[k y]|] eqn:Hfind; [|exact Hj].
  apply list_find_Some in Hfind as (Hk & Hy & Hmin).
  destruct (Z.leb_spec 0 (Z.of_nat k)) as [_|Hneg]; [|lia].
  rewrite Nat2Z.id.
  rewrite list_lookup_alter_ne; [exact Hj|].
  intros ->. assert (y = rj) as -> by congruence.
  apply (Hmin i ri Hi Hlt). congruence.
Qed.

Lemma collectLoop_shadowed w baseUrl apiKey cid files : forall R h i j ri rj,
  R !! i = Some ri -> R !! j = Some rj -> (i < j)%nat ->
  SyncResult.openWebUIId ri = SyncResult.openWebUIId rj ->
  fst (fold_left (collectStep w baseUrl apiKey cid) files (R, h)) !! j = Some rj.
Proof.
  induction files as [|uf files IH]; intros R h i j ri rj Hi Hj Hlt Hid.
  - exact Hj.
  - cbn [fold_left].
    destruct (collectStep_shape w baseUrl apiKey cid R h uf)
      as (k & st & seg & Hstep & -> & _).
    rewrite Hstep.
    pose proof (setCollectionStatus_frame
                  (findIndex (UploadedFile.id uf) R) (Some st) R) as Hframe.
    destruct (Forall2_lookup_l _ _ _ _ _ Hframe Hi) as (ri' & Hi' & Hsame).
    eapply (IH _ _ i j ri' rj); [exact Hi'| |exact Hlt|].
    + exact (setCollectionStatus_shadowed _ _ _ i j ri rj Hi Hj Hlt Hid).
    + rewrite <- Hid, Hsame. by destruct ri.
Qed.

(** X11 (shared id): when two entries of a report carry the same
    [openWebUIId], the later one has [collectionStatus] [null], whatever
    happened to its file: the handler finds the entry to update by the
    first match of the id, so only the first entry with an id is ever
    written. *)
Theorem shared_id_shadows_later_entry w env authHeader code s h i j ri rj :
  POST w env authHeader = (mkResponse code (SummaryBody s), h) ->
  results s !! i = Some ri ->
  results s !! j = Some rj ->
  (i < j)%nat ->
  SyncResult.openWebUIId ri = SyncResult.openWebUIId rj ->
  SyncResult.collectionStatus rj = None.
Proof.
  intros Hpost Hi Hj Hlt Hid.
  apply POST_report_inv in Hpost as (_ & _ & _ & blobs & _ & Hsync).
  destruct (syncBlobs_spec w (the (OPEN_WEB_UI_BASE_URL env))
              (the (OPEN_WEB_UI_API_KEY env)) (KNOWLEDGE_COLLECTION_ID env) blobs)
    as (fs & es & evs1 & R' & evs2 & _ & _ & _ & Hphase & Hsame & _ & Hs).
  pose proof (eq_trans (eq_sym Hsync) Hs) as Heq. injection Heq as Hs' _.
  rewrite Hs' in Hi, Hj. cbn [results] in Hi, Hj. clear Hs Hs' Hsync.
  destruct (Forall2_lookup_r _ _ _ _ _ Hsame Hi) as (ri0 & Hi0 & Hsi).
  destruct (Forall2_lookup_r _ _ _ _ _ Hsame Hj) as (rj0 & Hj0 & Hsj).
  assert (Hnull : SyncResult.collectionStatus rj0 = None).
  { apply list_lookup_fmap_Some in Hj0 as (f & -> & _). reflexivity. }
  assert (Hid0 : SyncResult.openWebUIId ri0 = SyncResult.openWebUIId rj0).
  { transitivity (SyncResult.openWebUIId ri); [rewrite Hsi; by destruct ri0|].
    rewrite Hid, Hsj. by destruct rj0. }
  unfold collectionPhase in Hphase. cbn [uploadResults uploadedFiles] in Hphase.
  assert (Hclear : (clearCollectionStatus (map resultOf fs), evs1) =
                     (R', evs2 ++ evs1) ->
                   SyncResult.collectionStatus rj = None).
  { intros [= <- _]. unfold clearCollectionStatus in Hj.
    apply list_lookup_fmap_Some in Hj as (r & -> & _). reflexivity. }
  destruct (KNOWLEDGE_COLLECTION_ID env) as [c|]; [|by apply Hclear].
  destruct (truthy (Some c) && _); [|by apply Hclear].
  pose proof (collectLoop_shadowed w (the (OPEN_WEB_UI_BASE_URL env))
                (the (OPEN_WEB_UI_API_KEY env)) c fs (map resultOf fs)
                (snd (sleep 5000 evs1)) i j ri0 rj0 Hi0 Hj0 Hlt Hid0) as Hkeep.
  rewrite Hphase in Hkeep. cbn [fst] in Hkeep.
  assert (rj = rj0) as -> by congruence. exact Hnull.
Qed.

Lemma shared_id_shadows_later_entry_witness :
  SyncResult.collectionStatus (Sample.entry "c.txt" "shared" None 7) = None.
Proof.
  apply (shared_id_shadows_later_entry Sample.sharedId Sample.env
           Sample.authHeader 200 Sample.reportSharedId
           (snd (POST Sample.sharedId Sample.env Sample.authHeader)) 0 1
           (Sample.entry "a.md" "shared" (Some "added") 120)
           (Sample.entry "c.txt" "shared" None 7)).
  - vm_compute. reflexivity.
  - reflexivity.
  - reflexivity.
  - lia.
  - reflexivity.
Defined.

(** * More on classification and readiness *)

Lemma lower_char_dot c :
  Ascii.eqb (lower_char c) "."%char = Ascii.eqb c "."%char.
Proof. by destruct c as [[] [] [] [] [] [] [] []]. Qed.

(** The two ways [toLowerCase] treats the head of a string. *)
Lemma toLowerCase_cases c rest :
  (exists rest',
     c = "226"%char /\ rest = String "132" (String "170" rest')
     /\ toLowerCase (String c rest) = String "k"%char (toLowerCase rest'))
  \/ toLowerCase (String c rest) = String (lower_char c) (toLowerCase rest).
Proof.
  destruct rest as [|c2 [|c3 rest']]; [by right..|].
  cbn [toLowerCase]. destruct (isKelvin c c2 c3) eqn:Hk; [|by right].
  left. exists rest'. unfold isKelvin in Hk. apply andb_true_iff in Hk as [Hk H3].
  apply andb_true_iff in Hk as [H1 H2].
  apply Ascii.eqb_eq in H1 as ->. apply Ascii.eqb_eq in H2 as ->.
  by apply Ascii.eqb_eq in H3 as ->.
Qed.


Lemma specExtension_not_dot c rest :
  Ascii.eqb c "."%char = false ->
  specExtension (String c rest) = specExtension rest.
Proof. intros Hc. cbn. rewrite Hc. by destruct (specExtension rest). Qed.

(** Lower-casing neither makes nor removes a dot, so it commutes with
    taking the extension. *)
Lemma specExtension_toLowerCase p :
  specExtension (toLowerCase p) = toLowerCase <$> specExtension p.
Proof.
  remember (String.length p) as n eqn:Hn.
  revert p Hn. induction (lt_wf n) as [n _ IH]. intros p ->.
  destruct p as [|c rest]; [reflexivity|].
  destruct (toLowerCase_cases c rest) as [(rest' & -> & -> & ->) | ->].
  - rewrite !specExtension_not_dot by reflexivity.
    apply (IH (String.length rest')); [cbn; lia|reflexivity].
  - cbn [specExtension].
    rewrite (IH (String.length rest)) by (cbn; done || lia).
    rewrite lower_char_dot.
    destruct (specExtension rest); [reflexivity|].
    by destruct (Ascii.eqb c "."%char).
Qed.

(** The extension the handler looks at is read off the lower-cased path. *)
Lemma fileExtension_toLowerCase p :
  fileExtension p =
    Some (match specExtension (toLowerCase p) with
          | Some e => e
          | None => toLowerCase p
          end).
Proof.
  rewrite fileExtension_spec, specExtension_toLowerCase.
  by destruct (specExtension p).
Qed.

(** X12 (letter case): classification does not look at the case of the
    ASCII letters of the path: two paths that agree once lower-cased get
    the same MIME type and the same way of reading the body. *)
Theorem classification_ignores_case p q :
  toLowerCase p = toLowerCase q -> classifyPath p = classifyPath q.
Proof.
  intros Heq. unfold classifyPath.
  by rewrite (fileExtension_toLowerCase p), (fileExtension_toLowerCase q), Heq.
Qed.

Lemma classification_ignores_case_witness :
  classifyPath "Notes/ReadMe.MD" = classifyPath "notes/readme.md".
Proof. apply classification_ignores_case. reflexivity. Defined.

(** X13 (extension table): for a path with a dot, classification is the
    look-up of the lower-cased text after the last dot in the table of the
    sixteen extensions, and [application/octet-stream] read as an array
    buffer when the table has no entry for it. *)
Theorem classification_by_extension p e :
  specExtension p = Some e ->
  classifyPath p =
    default (mkClassified "application/octet-stream" AsArrayBuffer)
      (tableLookup (toLowerCase e) extensionTable).
Proof.
  intros He. unfold classifyPath. rewrite fileExtension_spec, He.
  apply classify_table.
Qed.

Lemma classification_by_extension_witness :
  classifyPath "archive/2024.Q3/Report.final.DOCX" =
    default (mkClassified "application/octet-stream" AsArrayBuffer)
      (tableLookup (toLowerCase "DOCX") extensionTable).
Proof. apply classification_by_extension. reflexivity. Defined.

(** Lower-casing is the one of Unicode where it matters to the [switch]:
    KELVIN SIGN (U+212A) becomes [k], so an extension written with it is a
    markdown extension; a letter outside ASCII never makes a label. *)
Example classify_kelvin_sign :
  classifyPath ("file.MAR" +:+ utf8 0x212A +:+ "DOWN") =
    mkClassified "text/markdown" AsText.
Proof. reflexivity. Qed.

Example classify_dotted_capital_I :
  classifyPath ("picture.G" +:+ utf8 0x130 +:+ "F") =
    mkClassified "application/octet-stream" AsArrayBuffer.
Proof. reflexivity. Qed.

(** ** Readiness *)

Lemma app_chars s t :
  String.list_ascii_of_string (s +:+ t) =
    String.list_ascii_of_string s ++ String.list_ascii_of_string t.
Proof.
  induction s as [|c s IH]; [reflexivity|].
  change (String c s +:+ t) with (String c (s +:+ t)). cbn. by rewrite IH.
Qed.

Lemma chars_inj s t :
  String.list_ascii_of_string s = String.list_ascii_of_string t -> s = t.
Proof.
  intros H. rewrite <- (String.string_of_list_ascii_of_string s), H.
  apply String.string_of_list_ascii_of_string.
Qed.

Lemma rev_app_chars s t :
  String.list_ascii_of_string (String.rev_app s t) =
    rev (String.list_ascii_of_string s) ++ String.list_ascii_of_string t.
Proof.
  revert t. induction s as [|c s IH]; intros t; [reflexivity|].
  cbn [String.rev_app String.list_ascii_of_string rev]. rewrite IH.
  by rewrite <- app_assoc.
Qed.

Lemma rev_chars s :
  String.list_ascii_of_string (String.rev s) = rev (String.list_ascii_of_string s).
Proof. unfold String.rev. rewrite rev_app_chars. apply app_nil_r. Qed.

Lemma length_chars s : String.length s = length (String.list_ascii_of_string s).
Proof. induction s as [|c s IH]; [reflexivity|]. cbn. by rewrite IH. Qed.

Lemma string_app_assoc s t u : (s +:+ t) +:+ u = s +:+ (t +:+ u).
Proof. apply chars_inj. rewrite !app_chars. by rewrite <- app_assoc. Qed.

Lemma string_app_nil_r s : s +:+ EmptyString = s.
Proof. apply chars_inj. rewrite app_chars. apply app_nil_r. Qed.

Lemma string_rev_app s t : String.rev (s +:+ t) = String.rev t +:+ String.rev s.
Proof.
  apply chars_inj.
  rewrite rev_chars, !app_chars, !rev_chars. apply rev_app_distr.
Qed.

Lemma string_rev_involutive s : String.rev (String.rev s) = s.
Proof. apply chars_inj. rewrite !rev_chars. apply rev_involutive. Qed.

Lemma string_length_app s t :
  String.length (s +:+ t) = (String.length s + String.length t)%nat.
Proof. rewrite !length_chars, app_chars. apply length_app. Qed.

Lemma dropPrefix_Some p s rest : dropPrefix p s = Some rest <-> s = p +:+ rest.
Proof.
  revert s. induction p as [|a p IH]; intros s.
  - change (EmptyString +:+ rest) with rest. cbn. split; congruence.
  - change (String a p +:+ rest) with (String a (p +:+ rest)). cbn.
    destruct s as [|b s]; [split; discriminate|].
    destruct (Ascii.eqb_spec a b) as [->|Hab].
    + rewrite IH. split; congruence.
    + split; [discriminate|congruence].
Qed.

Lemma stripOne_Some patterns s rest :
  stripOne patterns s = Some rest ->
  exists p, p ∈ patterns /\ s = p +:+ rest.
Proof.
  induction patterns as [|p patterns IH]; cbn; [discriminate|].
  destruct (dropPrefix p s) as [r|] eqn:Hp.
  - intros [= ->]. exists p. split; [left|]. by apply dropPrefix_Some.
  - intros H. destruct (IH H) as (q & Hq & ->). exists q. split; [by right|done].
Qed.

Lemma stripOne_None patterns s p rest :
  stripOne patterns s = None -> p ∈ patterns -> s <> p +:+ rest.
Proof.
  induction patterns as [|q patterns IH]; cbn; intros Hnone Hin.
  - by apply elem_of_nil in Hin.
  - destruct (dropPrefix q s) as [r|] eqn:Hq; [discriminate|].
    apply elem_of_cons in Hin as [->|Hin]; [|by apply IH].
    intros Hs. apply dropPrefix_Some in Hs. congruence.
Qed.

(** What [stripLeading] removes is a sequence of patterns. *)
Lemma stripLeading_split patterns fuel s :
  exists removed,
    Repeats patterns removed /\ s = removed +:+ stripLeading patterns fuel s.
Proof.
  revert s. induction fuel as [|fuel IH]; intros s; cbn.
  - exists EmptyString. split; [constructor|reflexivity].
  - destruct (stripOne patterns s) as [rest|] eqn:Hone.
    + destruct (stripOne_Some _ _ _ Hone) as (p & Hp & ->).
      destruct (IH rest) as (removed & Hrem & Hrest).
      exists (p +:+ removed). split; [by constructor|].
      rewrite string_app_assoc. by rewrite <- Hrest.
    + exists EmptyString. split; [constructor|reflexivity].
Qed.

(** With the length of the string as fuel, nothing removable is left. *)
Lemma stripLeading_done patterns fuel s :
  Forall (fun p => p <> EmptyString) patterns ->
  (String.length s <= fuel)%nat ->
  stripOne patterns (stripLeading patterns fuel s) = None.
Proof.
  intros Hne. revert s. induction fuel as [|fuel IH]; intros s Hlen; cbn.
  - destruct s; [|cbn in Hlen; lia].
    clear Hlen. induction Hne as [|p patterns Hp _ IHp]; [reflexivity|].
    cbn. destruct p; [done|]. exact IHp.
  - destruct (stripOne patterns s) as [rest|] eqn:Hone; [|done].
    apply IH. destruct (stripOne_Some _ _ _ Hone) as (p & Hp & ->).
    rewrite Forall_forall in Hne. specialize (Hne p Hp).
    rewrite string_length_app in Hlen. destruct p; [done|]. cbn in Hlen. lia.
Qed.

(** No white-space character is the beginning of another one, and none is
    empty. *)
Lemma whiteSpace_prefix_free p q s t :
  p ∈ whiteSpace -> q ∈ whiteSpace -> p +:+ s = q +:+ t -> p = q.
Proof.
  unfold whiteSpace. cbn [map bytes String.string_of_list_ascii].
  intros Hp Hq.
  repeat (apply elem_of_cons in Hp as [->|Hp]);
    try (by apply elem_of_nil in Hp);
    repeat (apply elem_of_cons in Hq as [->|Hq]);
    try (by apply elem_of_nil in Hq);
    cbn; intros H; first [reflexivity | discriminate H].
Qed.

Lemma whiteSpace_nonempty : Forall (fun p => p <> EmptyString) whiteSpace.
Proof. unfold whiteSpace. cbn. repeat constructor; discriminate. Qed.

(** [trimStart] leaves nothing of a string of white space. *)
Lemma stripLeading_whiteSpace fuel s :
  (String.length s <= fuel)%nat -> Repeats whiteSpace s ->
  stripLeading whiteSpace fuel s = EmptyString.
Proof.
  revert s. induction fuel as [|fuel IH]; intros s Hlen Hs.
  - destruct s; [reflexivity|cbn in Hlen; lia].
  - cbn [stripLeading]. destruct (stripOne whiteSpace s) as [rest|] eqn:Hone.
    + destruct (stripOne_Some _ _ _ Hone) as (q & Hq & Heq).
      destruct Hs as [|p rest' Hp Hrest]; [by destruct q|].
      pose proof (whiteSpace_prefix_free _ _ _ _ Hp Hq Heq) as <-.
      apply String.app_inj in Heq as <-.
      apply IH; [|done].
      pose proof whiteSpace_nonempty as Hne. rewrite Forall_forall in Hne.
      specialize (Hne p Hp). rewrite string_length_app in Hlen.
      destruct p; [done|]. cbn in Hlen. lia.
    + destruct Hs as [|p rest' Hp Hrest]; [reflexivity|].
      by destruct (stripOne_None _ _ p rest' Hone Hp).
Qed.

Lemma Repeats_app patterns s t :
  Repeats patterns s -> Repeats patterns t -> Repeats patterns (s +:+ t).
Proof.
  induction 1 as [|p rest Hp _ IH]; intros Ht; [done|].
  rewrite string_app_assoc. constructor; auto.
Qed.

Lemma Repeats_rev patterns s :
  Repeats (map String.rev patterns) s -> Repeats patterns (String.rev s).
Proof.
  induction 1 as [|p rest Hp _ IH]; [constructor|].
  rewrite string_rev_app. apply Repeats_app; [done|].
  apply (list_elem_of_fmap String.rev) in Hp as (q & -> & Hq).
  rewrite string_rev_involutive, <- (string_app_nil_r q).
  constructor; [done|constructor].
Qed.

(** The patterns [trim] removes are the encodings of the white-space
    characters. *)
Lemma whiteSpace_code_points : whiteSpace = map utf8 whiteSpaceCodePoints.
Proof. reflexivity. Qed.

(** [trimStart] removes all it can: what it leaves starts with no
    white-space character. *)
Lemma trimStart_done s : stripOne whiteSpace (trimStart s) = None.
Proof. apply stripLeading_done; [apply whiteSpace_nonempty | done]. Qed.

(** [trim] leaves nothing exactly of the blank strings. *)
Lemma trim_empty s : trim s = EmptyString <-> Blank s.
Proof.
  unfold Blank. rewrite <- whiteSpace_code_points.
  unfold trim, trimEnd, trimStart. split.
  - intros Hs.
    destruct (stripLeading_split whiteSpace (String.length s) s)
      as (front & Hfront & Heq).
    set (t := stripLeading whiteSpace (String.length s) s) in *.
    destruct (stripLeading_split (map String.rev whiteSpace)
                (String.length t) (String.rev t)) as (back & Hback & Heq').
    apply (f_equal String.rev) in Hs. rewrite string_rev_involutive in Hs.
    change (String.rev EmptyString) with EmptyString in Hs.
    rewrite Hs, string_app_nil_r in Heq'.
    apply Repeats_rev in Hback. rewrite <- Heq', string_rev_involutive in Hback.
    rewrite Heq. by apply Repeats_app.
  - intros Hs. by rewrite stripLeading_whiteSpace.
Qed.

Lemma trim_nonempty s :
  (0 <? Z.of_nat (String.length (trim s))) = true <-> ~ Blank s.
Proof.
  rewrite <- trim_empty, Z.ltb_lt. destruct (trim s); cbn; split; try done; lia.
Qed.

(** X14 (readiness): the handler takes a file for ready exactly when the
    status record has [status] equal to ["completed"], letter for letter,
    and a [content] that is not blank, that is, with at least one
    character that [trim] does not remove; a missing record, a missing or
    empty content, and a content made of white space only (of Unicode,
    not only of ASCII) all count as not ready. *)
Theorem ready_iff_completed_with_text d :
  isProcessed d && hasContent d = true <->
  exists c,
    d = Some (mkFileData (Some "completed") (Some c)) /\ ~ Blank c.
Proof.
  split.
  - intros Hready. apply andb_true_iff in Hready as [Hp Hc].
    destruct d as [[[st|] [c|]]|]; try discriminate.
    cbn in Hp, Hc. apply String.eqb_eq in Hp as ->.
    apply andb_true_iff in Hc as [_ Hc]. exists c. split; [reflexivity|].
    by apply trim_nonempty.
  - intros (c & -> & Hc). cbn.
    pose proof (proj2 (trim_nonempty c) Hc) as Htrim. rewrite Htrim.
    destruct c as [|c0 c]; [|reflexivity].
    destruct Hc. constructor.
Qed.

(** A content of no-break spaces, a byte order mark and a line separator
    is blank, so the file is not ready; one letter makes it ready. *)
Example blank_unicode_content_is_not_ready :
  let content := utf8 0xA0 +:+ utf8 0xFEFF +:+ " " +:+ utf8 0x2028 in
  hasContent (Some (mkFileData (Some "completed") (Some content))) = false
  /\ hasContent (Some (mkFileData (Some "completed") (Some (content +:+ "a"))))
     = true.
Proof. split; reflexivity. Qed.


(** * The structured logger *)

Lemma getProp_updateProp k k' v o :
  getProp k' o <> None ->
  getProp k (updateProp k' v o) =
    if String.eqb k' k then Some v else getProp k o.
Proof.
  induction o as [|[k0 v0] o IH]; cbn [updateProp getProp]; [done|].
  intros Hsome. destruct (String.eqb_spec k0 k') as [->|Hne]; cbn [getProp].
  - by destruct (String.eqb k' k).
  - destruct (String.eqb_spec k0 k) as [->|Hne'].
    + by rewrite (proj2 (String.eqb_neq k' k)) by congruence.
    + by apply IH.
Qed.

Lemma getProp_insertProp k k' v o :
  getProp k' o = None ->
  getProp k (insertProp k' v o) =
    if String.eqb k' k then Some v else getProp k o.
Proof.
  induction o as [|[k0 v0] o IH]; cbn [insertProp getProp]; [done|].
  destruct (String.eqb_spec k0 k') as [->|Hne]; [discriminate|]. intros Hnone.
  destruct (comesBefore k' k0); cbn [getProp].
  - destruct (String.eqb_spec k' k) as [->|Hne']; [reflexivity|].
    reflexivity.
  - destruct (String.eqb_spec k0 k) as [->|Hne'].
    + by rewrite (proj2 (String.eqb_neq k' k)) by congruence.
    + by apply IH.
Qed.

Lemma getProp_setProp k k' v o :
  getProp k (setProp k' v o) = if String.eqb k' k then Some v else getProp k o.
Proof.
  unfold setProp. destruct (getProp k' o) as [v'|] eqn:Hk'.
  - apply getProp_updateProp. congruence.
  - by apply getProp_insertProp.
Qed.

Lemma getProp_app k o1 o2 :
  getProp k (o1 ++ o2) =
    match getProp k o1 with Some v => Some v | None => getProp k o2 end.
Proof.
  induction o1 as [|[k0 v0] o1 IH]; [reflexivity|].
  cbn [app getProp]. by destruct (String.eqb k0 k).
Qed.

Lemma getProp_None k o : ~ In k (map fst o) -> getProp k o = None.
Proof.
  induction o as [|[k0 v0] o IH]; intros Hnot; [reflexivity|].
  cbn [getProp].
  rewrite (proj2 (String.eqb_neq k0 k)) by (intros ->; apply Hnot; by left).
  apply IH. intros Hin. apply Hnot. by right.
Qed.

(** In an object, looking a key up from either end gives the same. *)
Lemma getProp_rev k o : NoDup (map fst o) -> getProp k (rev o) = getProp k o.
Proof.
  induction o as [|[k0 v0] o IH]; intros Hnd; [reflexivity|].
  cbn [map fst] in Hnd. apply NoDup_cons in Hnd as [Hfresh Hnd].
  cbn [rev]. rewrite getProp_app, (IH Hnd). cbn [getProp].
  destruct (String.eqb_spec k0 k) as [->|Hne].
  - rewrite getProp_None; [reflexivity|]. by rewrite <- list_elem_of_In.
  - by destruct (getProp k o).
Qed.

Lemma getProp_spread k src : forall o,
  getProp k (spread o src) =
    match getProp k (rev src) with
    | Some v => Some v
    | None => getProp k o
    end.
Proof.
  unfold spread. induction src as [|[k0 v0] src IH]; intros o; [reflexivity|].
  cbn [fold_left fst snd rev]. rewrite IH, getProp_app, getProp_setProp.
  cbn [getProp]. by destruct (getProp k (rev src)), (String.eqb k0 k).
Qed.

Lemma getProp_Some_In k o :
  getProp k o <> None <-> k ∈ map fst o.
Proof.
  induction o as [|[k0 v0] o IH]; cbn [getProp map fst].
  - split; [done|]. by intros ?%elem_of_nil.
  - destruct (String.eqb_spec k0 k) as [->|Hne].
    + split; [left|done].
    + rewrite IH. split; [by right|].
      intros [?|?]%elem_of_cons; [congruence|done].
Qed.

Lemma keys_updateProp k v o : map fst (updateProp k v o) = map fst o.
Proof.
  induction o as [|[k0 v0] o IH]; [reflexivity|].
  cbn [updateProp]. destruct (String.eqb k0 k); cbn [map fst]; [done|].
  by rewrite IH.
Qed.

Lemma keys_insertProp k v o : map fst (insertProp k v o) ≡ₚ k :: map fst o.
Proof.
  induction o as [|[k0 v0] o IH]; [reflexivity|].
  cbn [insertProp]. destruct (comesBefore k k0); cbn [map fst]; [done|].
  rewrite IH. apply perm_swap.
Qed.

(** A key that is no array index goes to the end. *)
Lemma keys_insertProp_end k v o :
  arrayIndex k = None -> map fst (insertProp k v o) = map fst o ++ [k].
Proof.
  intros Hk. induction o as [|[k0 v0] o IH]; [reflexivity|].
  cbn [insertProp]. unfold comesBefore. rewrite Hk. cbn [map fst app].
  by rewrite IH.
Qed.

Lemma keys_setProp k v o :
  arrayIndex k = None ->
  map fst (setProp k v o) =
    if bool_decide (k ∈ map fst o) then map fst o else map fst o ++ [k].
Proof.
  intros Hk. unfold setProp. destruct (getProp k o) as [v'|] eqn:Hget.
  - rewrite bool_decide_eq_true_2; [apply keys_updateProp|].
    apply getProp_Some_In. congruence.
  - rewrite bool_decide_eq_false_2; [by apply keys_insertProp_end|].
    rewrite <- getProp_Some_In. congruence.
Qed.

Lemma keys_setProp_NoDup k v o :
  NoDup (map fst o) -> NoDup (map fst (setProp k v o)).
Proof.
  intros Hnd. unfold setProp. destruct (getProp k o) as [v'|] eqn:Hget.
  - by rewrite keys_updateProp.
  - rewrite keys_insertProp. apply NoDup_cons. split; [|exact Hnd].
    rewrite <- getProp_Some_In. congruence.
Qed.

Lemma keys_spread_NoDup src : forall o,
  NoDup (map fst o) -> NoDup (map fst (spread o src)).
Proof.
  unfold spread. induction src as [|[k0 v0] src IH]; intros o Hnd; [exact Hnd|].
  cbn [fold_left]. apply IH. by apply keys_setProp_NoDup.
Qed.

Lemma keys_spread_prefix src : forall o,
  Forall (fun k => arrayIndex k = None) (map fst src) ->
  exists more, map fst (spread o src) = map fst o ++ more.
Proof.
  unfold spread. induction src as [|[k0 v0] src IH]; intros o Hsrc.
  - exists []. by rewrite app_nil_r.
  - cbn [fold_left fst snd]. cbn [map fst] in Hsrc.
    apply Forall_cons in Hsrc as [Hk0 Hsrc].
    destruct (IH (setProp k0 v0 o) Hsrc) as (more & Hmore). rewrite Hmore.
    rewrite keys_setProp by exact Hk0. destruct (bool_decide _).
    + by exists more.
    + exists (k0 :: more). by rewrite <- app_assoc.
Qed.

(** X15 (log entries): when no key of the context is an array index, a
    log entry starts with the keys [timestamp], [level], [message],
    [requestId] and [route], in this order, followed by the context keys
    that are none of these (a context key that is an array index would
    come before them all).  The value of a key is the one of the context
    when the context has the key, so a context field named like a standard
    field replaces it; otherwise it is the standard value.  Entries of
    level error go to [console.error], those of level warn to
    [console.warn], and those of level info and debug to [console.log]. *)
Theorem log_entry_fields timestamp requestId level message context :
  NoDup (map fst context) ->
  Forall (fun k => arrayIndex k = None) (map fst context) ->
  let '(console, entry) := emit timestamp requestId level message (Some context) in
  (forall k,
     getProp k entry =
       match getProp k context with
       | Some v => Some v
       | None =>
           getProp k
             [("timestamp", JString timestamp);
              ("level", JString (levelName level));
              ("message", JString message);
              ("requestId", JString requestId);
              ("route", JString "sync-documents")]
       end)
  /\ (exists more,
        map fst entry =
          ["timestamp"; "level"; "message"; "requestId"; "route"] ++ more)
  /\ NoDup (map fst entry)
  /\ console =
       match level with
       | LevelError => ConsoleError
       | LevelWarn => ConsoleWarn
       | LevelInfo | LevelDebug => ConsoleLog
       end.
Proof.
  intros Hnd Hkeys. unfold emit. change (default [] (Some context)) with context.
  set (base := spread _ (baseContext requestId)).
  assert (Hbase : base =
            [("timestamp", JString timestamp);
             ("level", JString (levelName level));
             ("message", JString message);
             ("requestId", JString requestId);
             ("route", JString "sync-documents")]) by reflexivity.
  split; [|split; [|split]].
  - intros k. rewrite getProp_spread, (getProp_rev _ _ Hnd), Hbase. reflexivity.
  - destruct (keys_spread_prefix context base Hkeys) as (more & Hmore).
    exists more. rewrite Hmore, Hbase. reflexivity.
  - apply keys_spread_NoDup. rewrite Hbase. cbn.
    repeat constructor; rewrite list_elem_of_In; simpl; intuition discriminate.
  - by destruct level.
Qed.

Lemma log_entry_fields_witness :
  let '(console, entry) :=
    emit "2025-10-30T14:33:31.715Z" "req-1" LevelWarn
      "Unauthorized sync attempt blocked"
      (Some [("hasAuthHeader", JBool false)]) in
  (forall k,
     getProp k entry =
       match getProp k [("hasAuthHeader", JBool false)] with
       | Some v => Some v
       | None =>
           getProp k
             [("timestamp", JString "2025-10-30T14:33:31.715Z");
              ("level", JString (levelName LevelWarn));
              ("message", JString "Unauthorized sync attempt blocked");
              ("requestId", JString "req-1");
              ("route", JString "sync-documents")]
       end)
  /\ (exists more,
        map fst entry =
          ["timestamp"; "level"; "message"; "requestId"; "route"] ++ more)
  /\ NoDup (map fst entry)
  /\ console = ConsoleWarn.
Proof.
  apply (log_entry_fields "2025-10-30T14:33:31.715Z" "req-1" LevelWarn
           "Unauthorized sync attempt blocked" [("hasAuthHeader", JBool false)]).
  - repeat constructor. rewrite list_elem_of_In. simpl. tauto.
  - repeat constructor.
Defined.

(** A context key that is an array index is enumerated first, as in
    JavaScript. *)
Example log_entry_with_index_key :
  map fst
    (snd (emit "2025-10-30T14:33:31.715Z" "req-1" LevelInfo "Processing file"
            (Some [("file", JString "a.md"); ("7", JNumber 1)]))) =
    ["7"; "timestamp"; "level"; "message"; "requestId"; "route"; "file"].
Proof. reflexivity. Qed.

(** X16 (logged errors): the [error] field of an entry written by
    [logger.error] is the serialisation of the error it was handed when
    that is truthy and [undefined] otherwise, also when the context has an
    [error] field of its own; every other field is as for the other log
    methods, and the entry goes to [console.error].  So a falsy thrown
    value ([undefined], [null], [false], [0], the empty string) leaves no
    detail in the log. *)
Theorem logged_error_field toString timestamp requestId message error context :
  let '(console, entry) :=
    logger_error toString timestamp requestId message error context in
  getProp "error" entry =
    Some (if thrownTruthy error then serializeError toString error
          else JUndefined)
  /\ (forall k,
        k <> "error" ->
        getProp k entry =
          getProp k (snd (emit timestamp requestId LevelError message context)))
  /\ console = ConsoleError.
Proof.
  unfold logger_error, emit. cbn [default snd].
  set (v := if thrownTruthy error then _ else _).
  set (ctx := default [] context).
  set (base := spread _ (baseContext requestId)).
  assert (Hnd : NoDup (map fst (setProp "error" v (spread [] ctx)))).
  { apply keys_setProp_NoDup, keys_spread_NoDup. constructor. }
  split; [|split; [|reflexivity]].
  - rewrite getProp_spread, (getProp_rev _ _ Hnd), getProp_setProp.
    reflexivity.
  - intros k Hk.
    rewrite !getProp_spread, (getProp_rev _ _ Hnd), getProp_setProp.
    rewrite (proj2 (String.eqb_neq "error" k)) by congruence.
    rewrite getProp_spread. cbn [getProp].
    by destruct (getProp k (rev ctx)).
Qed.


(** * The checks in front of the run *)

Lemma unauthorized_spec env authHeader :
  unauthorized env authHeader = false <->
  exists secret,
    CRON_SECRET env = Some secret /\ secret <> EmptyString
    /\ authHeader = Some ("Bearer " +:+ secret).
Proof.
  unfold unauthorized. destruct (CRON_SECRET env) as [secret|].
  - cbn [truthy]. rewrite orb_false_iff, !negb_false_iff, bool_decide_eq_true.
    split.
    + intros [Hs Ha]. exists secret. split; [reflexivity|]. split; [|exact Ha].
      intros ->. discriminate Hs.
    + intros (secret' & [= <-] & Hne & Ha). split; [|exact Ha].
      apply negb_true_iff. by apply String.eqb_neq.
  - split; [discriminate|]. by intros (secret & [=] & _).
Qed.

Lemma missingEnvVars_spec env :
  missingEnvVars env = [] <->
  truthy (BLOB_READ_WRITE_TOKEN env) = true
  /\ truthy (OPEN_WEB_UI_BASE_URL env) = true
  /\ truthy (OPEN_WEB_UI_API_KEY env) = true.
Proof.
  unfold missingEnvVars.
  destruct (truthy (BLOB_READ_WRITE_TOKEN env)),
    (truthy (OPEN_WEB_UI_BASE_URL env)), (truthy (OPEN_WEB_UI_API_KEY env));
    cbn; split; intros H; try discriminate H; try tauto;
    destruct H as (? & ? & ?); discriminate.
Qed.

(** X17 (status code): the status is 401, 500 or 200.  It is 401, with the
    body [{error: "Unauthorized"}] and without any outside call, exactly
    when [CRON_SECRET] is unset or empty or the authorization header is not
    ["Bearer "] followed by the secret; this check comes before the one of
    the configuration.  It is 200 exactly when the request is authorised,
    the three required variables are set and not empty, and the listing is
    fulfilled: neither [KNOWLEDGE_COLLECTION_ID] nor any answer to a fetch,
    upload, status or association call changes the status code. *)
Theorem status_code_of_POST w env authHeader :
  let authorised :=
    exists secret,
      CRON_SECRET env = Some secret /\ secret <> EmptyString
      /\ authHeader = Some ("Bearer " +:+ secret) in
  let code := statusCode (fst (POST w env authHeader)) in
  (code = 401 \/ code = 500 \/ code = 200)
  /\ (code = 401 <-> ~ authorised)
  /\ (code = 401 ->
      POST w env authHeader =
        (mkResponse 401 (ErrorBody "Unauthorized" None None), []))
  /\ (code = 200 <->
      authorised
      /\ truthy (BLOB_READ_WRITE_TOKEN env) = true
      /\ truthy (OPEN_WEB_UI_BASE_URL env) = true
      /\ truthy (OPEN_WEB_UI_API_KEY env) = true
      /\ exists blobs,
           list_blobs w (the (BLOB_READ_WRITE_TOKEN env)) = Fulfilled blobs).
Proof.
  cbn zeta. pose proof (unauthorized_spec env authHeader) as Hauth.
  pose proof (missingEnvVars_spec env) as Hmiss.
  unfold POST. destruct (unauthorized env authHeader).
  { cbn. split_and!; [by left| |done|].
    - split; [|done]. intros _ Ha. by apply Hauth in Ha.
    - split; [discriminate|]. intros (Ha & _). by apply Hauth in Ha. }
  assert (Ha : exists secret,
            CRON_SECRET env = Some secret /\ secret <> EmptyString
            /\ authHeader = Some ("Bearer " +:+ secret)) by by apply Hauth.
  destruct (missingEnvVars env) as [|v vs] eqn:Hm.
  2:{ cbn. split_and!; [by right; left| |discriminate|].
      - split; [discriminate|]. by intros Hn.
      - split; [discriminate|]. intros (_ & H1 & H2 & H3 & _).
        assert (v :: vs = []) by (by apply Hmiss). discriminate. }
  cbn [length Z.of_nat Z.ltb Z.compare].
  destruct (proj1 Hmiss eq_refl) as (H1 & H2 & H3).
  destruct (list_blobs w _) as [error|blobs] eqn:Hlist.
  - cbn. split_and!; [by right; left| |discriminate|].
    + split; [discriminate|]. by intros Hn.
    + split; [discriminate|]. by intros (_ & _ & _ & _ & blobs & [=]).
  - destruct (syncBlobs _ _ _ _ _) as [s h]. cbn.
    split_and!; [by right; right| |discriminate|].
    + split; [discriminate|]. by intros Hn.
    + split; [|done]. intros _. split_and!; try done. by exists blobs.
Qed.


(** * The report and the listing *)

Lemma UploadRun_Accounted blobs fs es evs :
  UploadRun blobs fs es evs ->
  forall rs,
    Forall2 sameUpload (map resultOf fs) rs -> Accounted blobs rs es evs.
Proof.
  induction 1 as [|blob blobs i calls fs es evs Hcalls _ IH
                  |blob blobs e calls fs es evs Hcalls He _ IH]; intros rs Hrs.
  - cbn in Hrs. apply Forall2_nil_inv_l in Hrs as ->. constructor.
  - cbn [map] in Hrs.
    apply Forall2_cons_inv_l in Hrs as (r & rs' & Hr & Hrs' & ->).
    unfold sameUpload in Hr.
    apply (Accounted_uploaded blob blobs i calls r rs' es evs);
      try (rewrite Hr; reflexivity); [exact Hcalls | by apply IH].
  - apply Accounted_failed; [exact Hcalls | exact He | by apply IH].
Qed.

(** C1, amended: the history of a run that ends with a report is the
    calls of the upload loop followed by calls that are neither fetches nor
    uploads, and along the upload loop the report accounts for the listing:
    in listing order, every blob for which the loop obtained an id (its
    fetch handed over a body and the upload answered with a non-empty id)
    is the next entry of [results], with that id, its path, size and date
    and the status ["uploaded"], and every blob for which it obtained none
    is the next entry of [errors] and has no entry in [results]. *)
Theorem results_and_errors_follow_listing w env authHeader code s h blobs :
  POST w env authHeader = (mkResponse code (SummaryBody s), h) ->
  list_blobs w (the (BLOB_READ_WRITE_TOKEN env)) = Fulfilled blobs ->
  exists h2 h1,
    h = h2 ++ h1
    /\ Accounted blobs (results s) (errors s) h1
    /\ Forall collectEvent h2.
Proof.
  intros Hpost Hlist.
  apply POST_report_inv in Hpost as (_ & _ & _ & blobs' & Hlist' & Hsync).
  rewrite Hlist in Hlist'. injection Hlist' as <-.
  destruct (run_shape_second_phase _ _ _ _ _ _ _ Hsync)
    as (fs & h1 & h2 & Hrun & Hsame & -> & Hh2).
  exists h2, h1. split; [reflexivity|]. split; [|exact Hh2].
  by apply (UploadRun_Accounted blobs fs).
Qed.

Lemma results_and_errors_follow_listing_witness :
  exists h2 h1,
    Sample.history = h2 ++ h1
    /\ Accounted Sample.blobs (results Sample.report) (errors Sample.report) h1
    /\ Forall collectEvent h2.
Proof.
  apply (results_and_errors_follow_listing Sample.world Sample.env
           Sample.authHeader 200 Sample.report Sample.history Sample.blobs).
  - vm_compute. reflexivity.
  - reflexivity.
Defined.

(** * Entries are found by id *)






